(** * Nexora Data Resource Checker: a shallow embedding of [tool.py]

    The development follows the Python source function by function:
    [load_requirements], [load_customer_packages], [process_json_file],
    [scan_servers_parallel], [save_results_to_file] and [main].  Python
    values are modelled as follows.

    - [str] is the list of the code points of the string.  The characters
      that [str.isspace], [str.strip] and the pattern [\s] take for blanks
      are those of CPython.  The case mapping of [str.lower], a table of the
      interpreter, is a parameter [lower] of the development; so is [str()]
      on a decoded value, [py_str], which the report uses.
    - the value returned by [json.load] is a [json] tree; a JSON object is
      the Python [dict] built by the decoder, kept as its list of items.
    - [requirements] is a [dict] whose iteration order matters (it fixes the
      order of the violations of one record): an association list.
    - [user_packages] is only ever queried with [.get]: a [gmap] from
      strings to [gset]s of strings.
    - an exception is a value of [result]; [try]/[except] is a [match].
    - [print] and [executor.submit] are recorded in a trace of events; the
      console is taken to accept every text.
    - the order in which [as_completed] yields the futures is not fixed by
      the program: it is an explicit argument of the scan, constrained to be
      a permutation of the submitted futures. *)

From Stdlib Require Import Ascii String.
From stdpp Require Import base list sorting gmap strings pretty.

(** ** Strings *)

(** A string is the list of its code points. *)
Abbreviation str := (list N).

(** The string that a literal of this file denotes. *)
Definition u (s : string) : str :=
  (λ a, N_of_ascii a) <$> String.list_ascii_of_string s.
Coercion u : string >-> list.

Module Str.

(** [str.isspace] for one character: the code points for which CPython's
    [Py_UNICODE_ISSPACE] holds, which is also the class [\s]. *)
Definition isspace (c : N) : bool :=
  (((9 <=? c) && (c <=? 13)) || ((28 <=? c) && (c <=? 32)) ||
   (c =? 133) || (c =? 160) || (c =? 5760) ||
   ((8192 <=? c) && (c <=? 8202)) ||
   (c =? 8232) || (c =? 8233) || (c =? 8239) || (c =? 8287) || (c =? 12288))%N.

Fixpoint lstrip (s : str) : str :=
  match s with
  | [] => []
  | c :: s' => if isspace c then lstrip s' else s
  end.

Fixpoint rstrip (s : str) : str :=
  match s with
  | [] => []
  | c :: s' =>
      match rstrip s' with
      | [] => if isspace c then [] else [c]
      | r => c :: r
      end
  end.

(** [s.strip()] *)
Definition strip (s : str) : str := rstrip (lstrip s).

(** [s.replace(c, "")] for a one-character [c]. *)
Fixpoint remove_char (c : N) (s : str) : str :=
  match s with
  | [] => []
  | d :: s' => if N.eqb d c then remove_char c s' else d :: remove_char c s'
  end.

(** [s.replace(c, d)] for one-character [c] and [d]. *)
Fixpoint replace_char (c d : N) (s : str) : str :=
  match s with
  | [] => []
  | x :: s' => (if N.eqb x c then d else x) :: replace_char c d s'
  end.

(** [sub in s] for two strings. *)
Fixpoint contains (s sub : str) : bool :=
  bool_decide (sub `prefix_of` s) ||
  match s with
  | [] => false
  | _ :: s' => contains s' sub
  end.

(** The character class of the pattern [[,\s]+]. *)
Definition is_sep (c : N) : bool := N.eqb c 44 || isspace c.

(** [re.split(r"[,\s]+", s)]: the pieces between the maximal runs of
    separators, with an empty piece before a leading run and after a
    trailing one.  [cur] is the piece being read, reversed; [in_run] says
    that the previous character was a separator. *)
Fixpoint re_split_go (cur : str) (in_run : bool) (s : str) : list str :=
  match s with
  | [] => [reverse cur]
  | c :: s' =>
      if is_sep c then
        if in_run then re_split_go [] true s'
        else reverse cur :: re_split_go [] true s'
      else re_split_go (c :: cur) false s'
  end.

Definition re_split (s : str) : list str := re_split_go [] false s.

(** [s.split(sep, 1)] for a one-character [sep]: the whole string when it
    has no [sep], else the text before the first [sep] and the text after
    it. *)
Fixpoint split1 (sep : N) (s : str) : list str :=
  match s with
  | [] => [[]]
  | c :: s' =>
      if N.eqb c sep then [[]; s']
      else
        match split1 sep s' with
        | first :: rest => (c :: first) :: rest
        | [] => [[c]]
        end
  end.

(** [a <= b] on strings: the order of the code points, the first difference
    deciding, a prefix coming first. *)
Fixpoint leb (a b : str) : bool :=
  match a, b with
  | [], _ => true
  | _ :: _, [] => false
  | x :: a', y :: b' =>
      match N.compare x y with
      | Lt => true
      | Gt => false
      | Eq => leb a' b'
      end
  end.

Definition le (a b : str) : Prop := leb a b = true.

(** The case mapping of [str.lower] on the letters [A] to [Z]; it is the
    mapping of the interpreter on ASCII text. *)
Definition ascii_lower (s : str) : str :=
  (λ c, if (65 <=? c) && (c <=? 90) then c + 32 else c)%N <$> s.

End Str.

(** Truth value of a Python string. *)
Definition truthy (s : str) : bool :=
  match s with
  | [] => false
  | _ :: _ => true
  end.

(** [len(x)] written in decimal, as an f-string shows it. *)
Definition decimal (n : nat) : str := u (pretty n).

(** ** JSON values, as [json.load] returns them *)

#[warnings="-register-all"]
Inductive json : Type :=
| JNull
| JBool (b : bool)
| JInt (z : Z)
| JFloat (literal : str)
| JStr (s : str)
| JList (elements : list json)
| JObj (items : list (str * json)).

(** [type(v).__name__] *)
Definition type_name (v : json) : str :=
  match v with
  | JNull => "NoneType"
  | JBool _ => "bool"
  | JInt _ => "int"
  | JFloat _ => "float"
  | JStr _ => "str"
  | JList _ => "list"
  | JObj _ => "dict"
  end.

(** ** Exceptions *)

(** The classes of the exceptions that the program meets; all of them
    derive from [Exception].  [ValueError] is the class itself, not one of
    its subclasses [UnicodeDecodeError] and [JSONDecodeError];
    [OtherException] stands for any further class that [open] or [json.load]
    may raise, none of them derived from these two. *)
Inductive exn_class :=
| OSError
| UnicodeDecodeError
| JSONDecodeError
| ValueError
| RecursionError
| AttributeError
| TypeError
| OtherException (class_name : str).

(** An exception: its class and [str(e)]. *)
Record exn := Exn { exn_cls : exn_class; exn_str : str }.

Inductive result (A : Type) : Type :=
| Ok (a : A)
| Raise (e : exn).
Arguments Ok {A} a.
Arguments Raise {A} e.

#[global] Instance result_ret : MRet result := @Ok.
#[global] Instance result_bind : MBind result := λ A B f m,
  match m with
  | Ok a => f a
  | Raise e => Raise e
  end.

Definition no_attribute (v : json) (attr : str) : exn :=
  Exn AttributeError
    (u "'" ++ type_name v ++ u "' object has no attribute '" ++ attr ++ u "'").

(** The [TypeError] of [x in v] for a [v] that is no container (the text is
    that of CPython up to 3.13). *)
Definition not_iterable (v : json) : exn :=
  Exn TypeError (u "argument of type '" ++ type_name v ++ u "' is not iterable").

(** ** Dictionaries kept as their items *)

Fixpoint dict_get {V : Type} (items : list (str * V)) (key : str) : option V :=
  match items with
  | [] => None
  | (k, v) :: rest => if decide (k = key) then Some v else dict_get rest key
  end.

(** [d[key] = v] on the items of a dict: the value of a key already present
    is replaced where it stands, a new key goes last. *)
Fixpoint dict_set {V : Type} (items : list (str * V)) (key : str) (v : V)
  : list (str * V) :=
  match items with
  | [] => [(key, v)]
  | (k, x) :: rest =>
      if decide (k = key) then (k, v) :: rest else (k, x) :: dict_set rest key v
  end.

(** [d.get(key, default)]: an [AttributeError] unless [d] is a dict. *)
Definition py_get (d : json) (key : str) (dflt : json) : result json :=
  match d with
  | JObj items => Ok (default dflt (dict_get items key))
  | _ => Raise (no_attribute d "get")
  end.

(** [x == resource] for an element [x] of a decoded list. *)
Definition eq_str (x : json) (resource : str) : bool :=
  match x with
  | JStr s => bool_decide (s = resource)
  | _ => false
  end.

(** [resource in container]: membership in a list, substring of a string,
    key of a dict, and a [TypeError] otherwise. *)
Definition py_in (resource : str) (container : json) : result bool :=
  match container with
  | JList elements => Ok (existsb (λ x, eq_str x resource) elements)
  | JStr s => Ok (Str.contains s resource)
  | JObj items => Ok (existsb (λ kv, bool_decide (kv.1 = resource)) items)
  | _ => Raise (not_iterable container)
  end.

(** ** The record evaluator *)

(** A server file: [json_file.name] and what [open] followed by
    [json.load] does on it. *)
Inductive file_content :=
| OpenFails (msg : str)        (* [open] raises an [OSError] *)
| DecodeFails (msg : str)      (* the bytes are not UTF-8 *)
| ParseFails (msg : str)       (* the text is not JSON *)
| LoadFails (e : exn)          (* [json.load] raises another exception, such
                                  as the [ValueError] of an integer with too
                                  many digits or a [RecursionError] *)
| Loads (data : json).

Record json_file := JsonFile { name : str; content : file_content }.

Definition json_load (f : json_file) : result json :=
  match content f with
  | OpenFails msg => Raise (Exn OSError msg)
  | DecodeFails msg => Raise (Exn UnicodeDecodeError msg)
  | ParseFails msg => Raise (Exn JSONDecodeError msg)
  | LoadFails e => Raise e
  | Loads data => Ok data
  end.

(** One element of [unauthorized_servers]. *)
Record ViolationEntry := {
  server_code : json;
  owner_name : json;
  owner_profile : json;
  resource : str;
  required_package : str;
  file_name : str
}.

(** What the scan prints; the text of a line is left to its arguments. *)
Inductive stdout_line :=
| NoJsonFilesFound
| FoundFiles (total_files : nat)
| ErrorLine (error : str)
| Progress (processed_files total_files found_servers : nat)
| EndOfProgress.

(** The effects of the scan, in program order. *)
Inductive event :=
| Print (line : stdout_line)
| Submit (args : json_file).

(** The local variables of [scan_servers_parallel] that the collection loop
    updates, and the effects performed so far. *)
Record scan_state := ScanState {
  unauthorized_servers : list ViolationEntry;
  processed_files : nat;
  found_servers : nat;
  trace : list event
}.

(** [as_completed] yields every submitted future exactly once, in an order
    that the program does not control. *)
Definition as_completed (futures completed : list json_file) : Prop :=
  futures ≡ₚ completed.

(** A row of [csv.DictReader]: the cell of each column, [None] where the
    line is shorter than the header. *)
Definition row : Type := list (str * option str).

(** [row.get(key, dflt)] *)
Definition row_get (r : row) (key dflt : str) : option str :=
  default (Some dflt) (dict_get r key).

(** [v.strip()] on a cell. *)
Definition py_strip (v : option str) : result str :=
  match v with
  | Some s => Ok (Str.strip s)
  | None => Raise (no_attribute JNull "strip")
  end.

Section python.

(** [str.lower], the case mapping of the interpreter. *)
Variable lower : str → str.

(** [str(v)] for a decoded value [v], as an f-string shows it. *)
Variable py_str : json → str.

(** [v.lower()]: an [AttributeError] unless [v] is a string. *)
Definition py_lower (v : json) : result str :=
  match v with
  | JStr s => Ok (lower s)
  | _ => Raise (no_attribute v "lower")
  end.

(** The statements of the [try] block before the loop: the local variables
    [server_resources], [owner_name], [owner_profile], [server_code] and
    [owner_key] that the loop reads. *)
Definition read_record (json_file : json_file)
  : result (json * json * json * json * str) :=
  data ← json_load json_file;
  d ← py_get data "Data" (JObj []);
  server_resources ← py_get d "resources" (JList []);
  d ← py_get data "Data" (JObj []);
  owner_name ← py_get d "ownerName" (JStr "N/A");
  d ← py_get data "Data" (JObj []);
  owner_profile ← py_get d "ownerProfile" (JStr "N/A");
  server_code ← py_get data "EndPoint" (JStr "N/A");
  owner_key ← py_lower owner_name;
  mret (server_resources, owner_name, owner_profile, server_code, owner_key).

Section evaluator.
Context (requirements : list (str * str)).
Context (user_packages : gmap str (gset str)).

(** The dictionary appended to [unauthorized_servers]. *)
Definition entry (json_file : json_file)
    (owner_name owner_profile server_code : json)
    (rule : str * str) : ViolationEntry :=
  {| server_code := server_code;
     owner_name := owner_name;
     owner_profile := owner_profile;
     resource := rule.1;
     required_package := rule.2;
     file_name := name json_file |}.

(** The [for ... in requirements.items()] loop; [unauthorized_servers] is
    the list built so far. *)
Fixpoint for_requirements (json_file : json_file)
    (server_resources owner_name owner_profile server_code : json)
    (owner_key : str) (items : list (str * str))
    (unauthorized_servers : list ViolationEntry)
  : result (list ViolationEntry) :=
  match items with
  | [] => Ok unauthorized_servers
  | (resource, required_package) :: items' =>
      used ← py_in resource server_resources;
      let unauthorized_servers' :=
        if used : bool then
          let owner_owned := default ∅ (user_packages !! owner_key) in
          if decide (required_package ∉ owner_owned) then
            unauthorized_servers ++
              [entry json_file owner_name owner_profile server_code
                 (resource, required_package)]
          else unauthorized_servers
        else unauthorized_servers in
      for_requirements json_file server_resources owner_name owner_profile
        server_code owner_key items' unauthorized_servers'
  end.

(** The body of the [try] block. *)
Definition try_body (json_file : json_file) : result (list ViolationEntry) :=
  '(server_resources, owner_name, owner_profile, server_code, owner_key) ←
    read_record json_file;
  for_requirements json_file server_resources owner_name owner_profile
    server_code owner_key requirements [].

(** The two [except] clauses. *)
Definition except (json_file : json_file) (e : exn) : str :=
  match exn_cls e with
  | JSONDecodeError | UnicodeDecodeError =>
      u "Error reading " ++ name json_file ++ u ": " ++ exn_str e
  | _ => u "Unexpected error with " ++ name json_file ++ u ": " ++ exn_str e
  end.

Definition process_json_file (json_file : json_file)
  : list ViolationEntry * option str :=
  match try_body json_file with
  | Ok unauthorized_servers => (unauthorized_servers, None)
  | Raise e => ([], Some (except json_file e))
  end.

End evaluator.

(** ** The scan coordinator *)

Section coordinator.
Context (requirements : list (str * str)).
Context (user_packages : gmap str (gset str)).

(** One iteration of [for future in as_completed(future_to_file)], on the
    value of [future.result()]. *)
Definition collect (total_files : nat) (st : scan_state)
    (future_result : list ViolationEntry * option str) : scan_state :=
  let '(result, error) := future_result in
  let processed_files := S (processed_files st) in
  let trace :=
    match error with
    | Some msg =>
        if truthy msg then trace st ++ [Print (ErrorLine msg)] else trace st
    | None => trace st
    end in
  let '(found_servers, unauthorized_servers) :=
    match result with
    | [] => (found_servers st, unauthorized_servers st)
    | _ :: _ =>
        (found_servers st + length result, unauthorized_servers st ++ result)
    end in
  ScanState unauthorized_servers processed_files found_servers
    (trace ++ [Print (Progress processed_files total_files found_servers)]).

(** [scan_servers_parallel]: [json_files] is the result of the [glob],
    [completed] the order in which the futures complete.  The value is the
    returned triple together with the effects. *)
Definition scan_servers_parallel (json_files completed : list json_file)
  : (list ViolationEntry * nat * nat) * list event :=
  let total_files := length json_files in
  if total_files =? 0 then (([], 0, 0), [Print NoJsonFilesFound])
  else
    let st0 :=
      ScanState [] 0 0
        (Print (FoundFiles total_files) :: (Submit <$> json_files)) in
    let st :=
      foldl (collect total_files) st0
        (process_json_file requirements user_packages <$> completed) in
    ((unauthorized_servers st, processed_files st, found_servers st),
     trace st ++ [Print EndOfProgress]).

End coordinator.

(** Observations on a run of the scan. *)
Definition violations (run : (list ViolationEntry * nat * nat) * list event)
  : list ViolationEntry := run.1.1.1.
Definition processedCount (run : (list ViolationEntry * nat * nat) * list event)
  : nat := run.1.1.2.
Definition foundCount (run : (list ViolationEntry * nat * nat) * list event)
  : nat := run.1.2.

(** The diagnostics that a run reports, in the order it prints them. *)
Definition diagnostics (tr : list event) : list str :=
  omap (λ ev, match ev with Print (ErrorLine msg) => Some msg | _ => None end) tr.

(** The records handed to a worker. *)
Definition submitted (tr : list event) : list json_file :=
  omap (λ ev, match ev with Submit f => Some f | _ => None end) tr.

(** The progress that a run prints: the numbers of each progress line. *)
Definition progress_lines (tr : list event) : list (nat * nat * nat) :=
  omap (λ ev,
          match ev with
          | Print (Progress processed total found) => Some (processed, total, found)
          | _ => None
          end) tr.

(** ** The customer index *)

(** The packages named by the (stripped) [Packages] cell of a row; 91, 93,
    34, 59 and 44 are the code points of the two square brackets, the double
    quote, the semicolon and the comma. *)
Definition owned_packages_of (packages_field : str) : gset str :=
  let clean_field :=
    Str.remove_char 34
      (Str.remove_char 93 (Str.remove_char 91 packages_field)) in
  let clean_field := Str.replace_char 59 44 clean_field in
  let owned_packages : gset str := list_to_set (Str.re_split clean_field) in
  set_map Str.strip (filter (λ p, Str.strip p ≠ []) owned_packages).

(** The body of [for row in reader]. *)
Definition add_row (user_packages : gmap str (gset str)) (r : row)
  : result (gmap str (gset str)) :=
  username ← py_strip (row_get r "Username" []);
  packages_field ← py_strip (row_get r "Packages" []);
  if truthy username then
    let username := lower username in
    let owned_packages := owned_packages_of packages_field in
    let user_packages :=
      if decide (username ∈ dom user_packages) then user_packages
      else <[username := ∅]> user_packages in
    Ok (<[username := default ∅ (user_packages !! username) ∪ owned_packages]>
          user_packages)
  else Ok user_packages.

Fixpoint for_rows (user_packages : gmap str (gset str)) (rows : list row)
  : result (gmap str (gset str)) :=
  match rows with
  | [] => Ok user_packages
  | r :: rows' => user_packages' ← add_row user_packages r; for_rows user_packages' rows'
  end.

(** [load_customer_packages]: [csv_files] is the result of the [glob], each
    file given by the rows that the reader yields. *)
Definition load_customer_packages (csv_files : list (list row))
  : result (gmap str (gset str)) :=
  match csv_files with
  | [] => Ok ∅
  | rows :: _ => for_rows ∅ rows
  end.

(** ** The entitlement table *)

(** The body of [for line in f]; [None] stands for the [ValueError] of an
    unpacking that does not find two values; 58 is the colon. *)
Definition add_requirement (requirements : list (str * str))
    (line : str) : option (list (str * str)) :=
  let line := Str.strip line in
  if negb (truthy line) || negb (Str.contains line ":") then Some requirements
  else
    match Str.split1 58 line with
    | [resource; package_id] =>
        Some (dict_set requirements (Str.strip resource) (Str.strip package_id))
    | _ => None
    end.

Fixpoint for_lines (requirements : list (str * str)) (lines : list str)
  : option (list (str * str)) :=
  match lines with
  | [] => Some requirements
  | line :: lines' =>
      requirements' ← add_requirement requirements line;
      for_lines requirements' lines'
  end.

(** The lines that iterating over a file opened in text mode yields for the
    text of the file: each line with its end, the ends [\r] and [\r\n] being
    read as [\n] (10 is the line feed, 13 the carriage return).  [cur] is the
    line being read, reversed; [after_cr] says that the previous character
    was a carriage return. *)
Fixpoint read_lines (cur : str) (after_cr : bool) (text : str) : list str :=
  match text with
  | [] => if truthy cur then [reverse cur] else []
  | c :: text' =>
      if N.eqb c 10 then
        if after_cr then read_lines cur false text'
        else reverse (10%N :: cur) :: read_lines [] false text'
      else if N.eqb c 13 then reverse (10%N :: cur) :: read_lines [] true text'
      else read_lines (c :: cur) false text'
  end.

Definition text_lines (text : str) : list str := read_lines [] false text.

(** [load_requirements]: [requirements_file] is [None] when the file does
    not exist, else the lines read from it (each with its end of line). *)
Definition load_requirements (requirements_file : option (list str))
  : option (list (str * str)) :=
  match requirements_file with
  | None => Some []
  | Some lines => for_lines [] lines
  end.

(** ** The report and the main program *)

(** The end of line. *)
Definition nl : str := [10%N].

(** UTF-8, the encoding of the report, has no encoding for the surrogates
    (code points D800 to DFFF), which a decoded JSON string may hold. *)
Definition encodable (s : str) : bool :=
  forallb (λ c, negb ((55296 <=? c) && (c <=? 57343))%N) s.

(** The seven lines of a server, without end of line. *)
Definition server_lines (server : ViolationEntry) : list str :=
  [ u "Server Code: " ++ py_str (server_code server);
    u "Owner Name: " ++ py_str (owner_name server);
    u "Owner Profile: " ++ py_str (owner_profile server);
    u "Resource: " ++ resource server;
    u "Required Package: " ++ required_package server;
    u "JSON File: " ++ file_name server;
    replicate 40 45%N ].

(** The texts that [save_results_to_file] passes to [f.write], in order;
    61 is the equals sign. *)
Definition report_texts (generated : str)
    (unauthorized_servers : list ViolationEntry)
    (requirements : list (str * str)) : list str :=
  [ replicate 80 61%N ++ nl;
    u "UNAUTHORIZED SERVERS REPORT" ++ nl;
    replicate 80 61%N ++ nl;
    u "Requirements Checked: " ++ decimal (length requirements) ++
      u " resources" ++ nl;
    u "Report Generated: " ++ generated ++ nl;
    u "Total Unauthorized Servers Found: " ++
      decimal (length unauthorized_servers) ++ nl;
    replicate 80 61%N ++ nl ++ nl ] ++
  match unauthorized_servers with
  | [] => [u "No unauthorized servers found!" ++ nl]
  | _ :: _ => (λ line, line ++ nl) <$> (unauthorized_servers ≫= server_lines)
  end.

(** The writes that succeed: a write whose text cannot be encoded raises a
    [UnicodeEncodeError], which ends the function; the value is the texts
    written and the text that could not be, if any. *)
Fixpoint write_all (texts : list str) : list str * option str :=
  match texts with
  | [] => ([], None)
  | text :: texts' =>
      if encodable text then
        let '(written, failed) := write_all texts' in (text :: written, failed)
      else ([], Some text)
  end.

(** [save_results_to_file]: [timestamp] and [generated] are the two readings
    of the clock, formatted; the value is the name of the file, the texts
    written to it and the text on which a write failed, if any.  The
    directory is taken to be writable. *)
Definition save_results_to_file (timestamp generated : str)
    (unauthorized_servers : list ViolationEntry)
    (requirements : list (str * str))
  : str * (list str * option str) :=
  let filename := u "outputs/5DB-Check-ID_" ++ timestamp ++ u ".txt" in
  (filename, write_all (report_texts generated unauthorized_servers requirements)).

(** What the main program prints besides the lines of the scan; the text of
    the lines of the report is kept. *)
Inductive console_line :=
| LoadingRequirements
| RequirementsFileNotFound
| LoadedRequirements (n : nat)
| LoadingCustomers
| NoCsvFiles
| LoadedCustomers (n : nat)
| Scanning
| ScanCompleted                       (* with the elapsed time *)
| Processed (processed_files found_servers : nat)
| ResultsSaved (output_file : str)
| Report (text : str).

(** The effects of the main program, in program order. *)
Inductive main_event :=
| Console (line : console_line)
| Scan (ev : event)
| WriteFile (filename : str) (texts : list str).

(** How the main program can end other than by returning. *)
Inductive crash :=
| UnpackError                         (* the [ValueError] of an unpacking *)
| Uncaught (e : exn)
| EncodeError (text : str).           (* the [UnicodeEncodeError] of a write *)

(** The report that [main] prints at its end. *)
Definition console_report (unauthorized_servers : list ViolationEntry)
  : list str :=
  match unauthorized_servers with
  | [] => [nl ++ u "No unauthorized servers found!"]
  | _ :: _ =>
      [ nl ++ replicate 80 61%N;
        u "UNAUTHORIZED SERVERS FOUND:";
        replicate 80 61%N ] ++
      (unauthorized_servers ≫= server_lines)
  end.

(** [main]: the two loaders, the scan, the report on disk and the report on
    the console.  The lines that the loaders print when their input is
    missing are recorded where they are printed. *)
Definition main (requirements_file : option (list str))
    (csv_files : list (list row)) (json_files completed : list json_file)
    (timestamp generated : str)
  : list main_event * option crash :=
  let tr :=
    Console LoadingRequirements ::
    match requirements_file with
    | None => [Console RequirementsFileNotFound]
    | Some _ => []
    end in
  match load_requirements requirements_file with
  | None => (tr, Some UnpackError)
  | Some requirements =>
      let tr :=
        tr ++
        [Console (LoadedRequirements (length requirements));
         Console LoadingCustomers] ++
        match csv_files with
        | [] => [Console NoCsvFiles]
        | _ :: _ => []
        end in
      match load_customer_packages csv_files with
      | Raise e => (tr, Some (Uncaught e))
      | Ok user_packages =>
          let run :=
            scan_servers_parallel requirements user_packages json_files completed in
          let unauthorized_servers := run.1.1.1 in
          let processed_files := run.1.1.2 in
          let found_servers := run.1.2 in
          let saved :=
            save_results_to_file timestamp generated unauthorized_servers
              requirements in
          let output_file := saved.1 in
          let tr :=
            tr ++
            [Console (LoadedCustomers (size user_packages)); Console Scanning] ++
            (Scan <$> run.2) ++
            [Console ScanCompleted;
             Console (Processed processed_files found_servers);
             WriteFile output_file saved.2.1] in
          match saved.2.2 with
          | Some text => (tr, Some (EncodeError text))
          | None =>
              (tr ++ [Console (ResultsSaved output_file)] ++
               (Console ∘ Report <$> console_report unauthorized_servers),
               None)
          end
      end
  end.

(** Observations on a run of the main program. *)

(** The report written to disk, if one is written. *)
Definition written (tr : list main_event) : list (str * list str) :=
  omap (λ ev, match ev with WriteFile f texts => Some (f, texts) | _ => None end) tr.

(** The report lines printed on the console. *)
Definition printed (tr : list main_event) : list str :=
  omap (λ ev, match ev with Console (Report l) => Some l | _ => None end) tr.

(** The events of the scan inside a run of the main program. *)
Definition scanned (tr : list main_event) : list event :=
  omap (λ ev, match ev with Scan e => Some e | _ => None end) tr.

(** The summary line of the console. *)
Definition summary (tr : list main_event) : list (nat * nat) :=
  omap (λ ev, match ev with
              | Console (Processed p f) => Some (p, f)
              | _ => None
              end) tr.

(** ** Notions used to state the properties *)

#[global] Instance exn_class_eq_dec : EqDecision exn_class.
Proof. solve_decision. Defined.
#[global] Instance exn_eq_dec : EqDecision exn.
Proof. solve_decision. Defined.
#[global] Instance result_eq_dec `{EqDecision A} : EqDecision (result A).
Proof. solve_decision. Defined.

(** Containers on which [in] does not raise. *)
Definition iterable (container : json) : bool :=
  match container with
  | JList _ | JStr _ | JObj _ => true
  | _ => false
  end.

(** The shape that the evaluator reads without fault: an object whose
    [Data], when present, is an object, and whose [ownerName], when present,
    is a string. *)
Definition readable (data : json) : bool :=
  match data with
  | JObj items =>
      match default (JObj []) (dict_get items "Data") with
      | JObj d =>
          match default (JStr "N/A") (dict_get d "ownerName") with
          | JStr _ => true
          | _ => false
          end
      | _ => false
      end
  | _ => false
  end.

(** The value in which the evaluator looks for the resources, for a decoded
    value of that shape. *)
Definition resources_of (data : json) : json :=
  match data with
  | JObj items =>
      match default (JObj []) (dict_get items "Data") with
      | JObj d => default (JList []) (dict_get d "resources")
      | _ => JList []
      end
  | _ => JList []
  end.

(** The records that the evaluator cannot evaluate: the file does not load,
    or loads a value of another shape, or the table has a rule and the
    resources cannot be searched. *)
Definition faulty (requirements : list (str * str)) (f : json_file) : Prop :=
  match content f with
  | Loads data =>
      readable data = false ∨
      (requirements ≠ [] ∧ iterable (resources_of data) = false)
  | _ => True
  end.

(** The value on which a decoded record makes the evaluator raise an
    [AttributeError], with the attribute that it lacks: the record itself or
    its [Data], which are asked for [get], or its [ownerName], which is asked
    for [lower]. *)
Definition shape_fault (data : json) : option (json * str) :=
  match data with
  | JObj items =>
      match default (JObj []) (dict_get items "Data") with
      | JObj d =>
          match default (JStr "N/A") (dict_get d "ownerName") with
          | JStr _ => None
          | owner => Some (owner, u "lower")
          end
      | other => Some (other, u "get")
      end
  | other => Some (other, u "get")
  end.

(** The exceptions that the first [except] clause catches. *)
Definition reading_error (e : exn) : bool :=
  match exn_cls e with
  | JSONDecodeError | UnicodeDecodeError => true
  | _ => false
  end.

(** A rule is violated by a record that uses its resource while the owner,
    looked up under [owner_key], does not hold the required package; an owner
    without an entry owns nothing. *)
Definition violated (user_packages : gmap str (gset str))
    (server_resources : json) (owner_key : str) (rule : str * str)
  : Prop :=
  py_in rule.1 server_resources = Ok true ∧
  rule.2 ∉ default ∅ (user_packages !! owner_key).

#[global] Instance violated_dec ups sr ok rule : Decision (violated ups sr ok rule).
Proof. unfold violated. apply _. Defined.

(** The entries of a violation list that belong to a rule. *)
Definition for_rule (rule : str * str) (v : ViolationEntry) : Prop :=
  resource v = rule.1 ∧ required_package v = rule.2.

#[global] Instance for_rule_dec rule v : Decision (for_rule rule v).
Proof. unfold for_rule. apply _. Defined.

#[global] Instance str_le_dec : RelDecision Str.le.
Proof. intros a b. unfold Str.le. apply _. Defined.

(** The order of the report asked for by the specification: by source
    identifier, then by resource, both compared as strings. *)
Definition key_le (v1 v2 : ViolationEntry) : Prop :=
  if decide (file_name v1 = file_name v2)
  then Str.le (resource v1) (resource v2)
  else Str.le (file_name v1) (file_name v2).

#[global] Instance key_le_dec : RelDecision key_le.
Proof. intros v1 v2. unfold key_le. case_decide; apply _. Defined.

(** Sorting a violation list in that order; the scan itself does not sort. *)
Definition sort_violations (l : list ViolationEntry) : list ViolationEntry :=
  merge_sort key_le l.

(** The value and the diagnostic of each record, in a given order. *)
Definition outcomes (requirements : list (str * str))
    (user_packages : gmap str (gset str)) (records : list json_file)
  : list (list ViolationEntry * option str) :=
  process_json_file requirements user_packages <$> records.

(** Strings without separator. *)
Definition no_sep (s : str) : Prop := Forall (λ c, Str.is_sep c = false) s.

(** Strings without blank at either end. *)
Definition stripped (s : str) : Prop :=
  (∀ c, head s = Some c → Str.isspace c = false) ∧
  (∀ c, last s = Some c → Str.isspace c = false).

(** *** The customer index, as the specification words it *)

(** Splitting at every separator, one piece per separator. *)
Fixpoint split_each (cur : str) (s : str) : list str :=
  match s with
  | [] => [reverse cur]
  | c :: s' =>
      if Str.is_sep c then reverse cur :: split_each [] s'
      else split_each (c :: cur) s'
  end.

(** Brackets and the double quote are dropped, [;] reads as [,]. *)
Definition is_wrapper (c : N) : bool := N.eqb c 91 || N.eqb c 93 || N.eqb c 34.

Fixpoint clean (s : str) : str :=
  match s with
  | [] => []
  | c :: s' =>
      if is_wrapper c then clean s'
      else (if N.eqb c 59 then 44%N else c) :: clean s'
  end.

(** The non-empty pieces of a field, [cur] being a piece already begun. *)
Definition pieces (cur : str) (field : str) : list str :=
  filter (λ p, p ≠ []) (split_each cur (clean field)).

(** The package set of a [Packages] field: the non-empty pieces. *)
Definition packages (field : str) : gset str := list_to_set (pieces [] field).

(** The key under which a row is filed, if it is filed at all. *)
Definition row_key (r : row) : option str :=
  match row_get r "Username" [] with
  | Some username =>
      if truthy (Str.strip username) then Some (lower (Str.strip username))
      else None
  | None => None
  end.

Definition row_packages (r : row) : gset str :=
  match row_get r "Packages" [] with
  | Some field => packages field
  | None => ∅
  end.

(** The index holds, for a key, the union over the rows filed under it. *)
Definition index (rows : list row) (key : str) : option (gset str) :=
  match filter (λ r, row_key r = Some key) rows with
  | [] => None
  | rs => Some (⋃ (row_packages <$> rs))
  end.

(** Rows in which both cells can be read. *)
Definition well_formed (r : row) : Prop :=
  is_Some (row_get r "Username" []) ∧ is_Some (row_get r "Packages" []).

#[global] Instance well_formed_dec r : Decision (well_formed r).
Proof. unfold well_formed. apply _. Defined.

(** The characters that a package name of the index can hold: no bracket,
    no double quote, no semicolon, no comma and no blank. *)
Definition package_char (c : N) : bool :=
  negb (is_wrapper c) && negb (N.eqb c 59) && negb (Str.is_sep c).

(** Two indexes put together: a customer of both holds the packages of
    both. *)
Definition merge_index (m1 m2 : gmap str (gset str)) : gmap str (gset str) :=
  union_with (λ s1 s2, Some (s1 ∪ s2)) m1 m2.

(** *** The entitlement table, line by line *)

(** The text before the first [sep] and the text after it. *)
Fixpoint split_at (sep : N) (s : str) : option (str * str) :=
  match s with
  | [] => None
  | c :: s' =>
      if N.eqb c sep then Some ([], s')
      else
        match split_at sep s' with
        | Some (before, after) => Some (c :: before, after)
        | None => None
        end
  end.

(** The rule that a line states, if it states one. *)
Definition rule_of_line (line : str) : option (str * str) :=
  match split_at 58 (Str.strip line) with
  | Some (before, after) => Some (Str.strip before, Str.strip after)
  | None => None
  end.

(** The elements of a list in the order of their first occurrence. *)
Fixpoint first_occurrences (l : list str) : list str :=
  match l with
  | [] => []
  | x :: l' => x :: filter (λ y, y ≠ x) (first_occurrences l')
  end.

(** The line of the file that states a rule. *)
Definition line_of_rule (rule : str * str) : str :=
  rule.1 ++ u ":" ++ rule.2 ++ nl.

(** Strings without colon, and strings without end of line (10 and 13 are
    the line feed and the carriage return, at which a file read in text mode
    is cut into lines). *)
Definition no_colon (s : str) : Prop := 58%N ∉ s.
Definition one_line (s : str) : Prop := (10%N ∉ s) ∧ (13%N ∉ s).

(** Storing a rule in the table. *)
Definition store_rule (requirements : list (str * str))
    (rule : str * str) : list (str * str) :=
  dict_set requirements rule.1 rule.2.

(** * Properties *)

(** ** The record evaluator *)

Section evaluator_facts.
Context (requirements : list (str * str)).
Context (user_packages : gmap str (gset str)).

Lemma py_in_iterable resource container :
  iterable container = true → ∃ b, py_in resource container = Ok b.
Proof. destruct container; simpl; intros; try discriminate; eauto. Qed.

Lemma py_in_not_iterable resource container :
  iterable container = false →
  py_in resource container = Raise (not_iterable container).
Proof. destruct container; simpl; intros; try discriminate; eauto. Qed.

(** Membership of a resource in a decoded list of resources. *)
Lemma py_in_list resource elements :
  py_in resource (JList elements) = Ok true ↔ JStr resource ∈ elements.
Proof.
  simpl. split.
  - intros [= H]. apply existsb_exists in H as (x & Hx & Heq).
    destruct x; simpl in Heq; try discriminate.
    apply bool_decide_eq_true in Heq as ->. by apply list_elem_of_In.
  - intros H. f_equal. apply existsb_exists. exists (JStr resource).
    split; [by apply list_elem_of_In|]. simpl. by apply bool_decide_eq_true.
Qed.

(** On an iterable [server_resources] the loop appends, in the order of
    the table, one entry per violated rule. *)
Lemma for_requirements_iterable f sr on op sc ok items acc :
  iterable sr = true →
  for_requirements user_packages f sr on op sc ok items acc =
    Ok (acc ++ (entry f on op sc <$> filter (violated user_packages sr ok) items)).
Proof.
  intros Hit. revert acc.
  induction items as [|[resource required_package] items IH]; intros acc.
  - simpl. by rewrite app_nil_r.
  - rewrite filter_cons. cbn [for_requirements].
    destruct (py_in_iterable resource sr Hit) as [b Hb].
    destruct (decide (violated user_packages sr ok (resource, required_package)))
      as [[Hin Hown]|Hnot]; simpl in *.
    + rewrite Hin. simpl. rewrite decide_True by done.
      rewrite IH, <- app_assoc. done.
    + rewrite Hb. simpl. rewrite IH. do 2 f_equal.
      destruct b; [|done]. case_decide; [|done].
      destruct Hnot. split; [done|done].
Qed.

(** Otherwise the first rule already raises. *)
Lemma for_requirements_not_iterable f sr on op sc ok items acc :
  iterable sr = false → items ≠ [] →
  for_requirements user_packages f sr on op sc ok items acc =
    Raise (not_iterable sr).
Proof.
  intros Hit Hne. destruct items as [|[resource required_package] items]; [done|].
  simpl. by rewrite (py_in_not_iterable _ _ Hit).
Qed.

(** The value of the evaluator on a record that could be read. *)
Lemma process_json_file_read f sr on op sc ok :
  read_record f = Ok (sr, on, op, sc, ok) →
  process_json_file requirements user_packages f =
    if iterable sr then
      (entry f on op sc <$> filter (violated user_packages sr ok) requirements,
       None)
    else if decide (requirements = []) then ([], None)
    else ([], Some (except f (not_iterable sr))).
Proof.
  intros Hread. unfold process_json_file, try_body. rewrite Hread. simpl.
  destruct (iterable sr) eqn:Hit.
  - by rewrite for_requirements_iterable.
  - case_decide as Hreq.
    + by rewrite Hreq.
    + by rewrite for_requirements_not_iterable.
Qed.

(** A record that cannot be read yields its diagnostic and nothing else. *)
Lemma process_json_file_unread f e :
  read_record f = Raise e →
  process_json_file requirements user_packages f = ([], Some (except f e)).
Proof.
  intros Hread. unfold process_json_file, try_body. by rewrite Hread.
Qed.

(** Every entry of a record carries the name of its file. *)
Lemma process_json_file_file_name f v :
  v ∈ (process_json_file requirements user_packages f).1 → file_name v = name f.
Proof.
  destruct (read_record f) as [[[[[sr on] op] sc] ok]|e] eqn:Hread.
  - rewrite (process_json_file_read _ _ _ _ _ _ Hread).
    destruct (iterable sr); [|case_decide; simpl; by intros ?%elem_of_nil].
    simpl. intros (rule & -> & _)%list_elem_of_fmap. done.
  - rewrite (process_json_file_unread _ _ Hread). simpl. by intros ?%elem_of_nil.
Qed.

End evaluator_facts.

(** In a table with unique resources, the entries that belong to a rule of
    the table are the entry of that rule, if it is violated. *)
Lemma filter_for_rule_absent (g : str * str → ViolationEntry)
    (V : str * str → Prop) `{∀ x, Decision (V x)}
    (rule : str * str) (l : list (str * str)) :
  (∀ x, resource (g x) = x.1) →
  rule.1 ∉ l.*1 →
  filter (for_rule rule) (g <$> filter V l) = [].
Proof.
  intros Hg. induction l as [|x l IH]; [done|].
  rewrite fmap_cons, not_elem_of_cons. intros [Hx Hl].
  rewrite filter_cons. case_decide; [|by apply IH].
  rewrite fmap_cons, filter_cons, decide_False; [by apply IH|].
  intros [Hr _]. rewrite Hg in Hr. congruence.
Qed.

Lemma filter_for_rule_present (g : str * str → ViolationEntry)
    (V : str * str → Prop) `{∀ x, Decision (V x)}
    (rule : str * str) (l : list (str * str)) :
  (∀ x, resource (g x) = x.1) → (∀ x, required_package (g x) = x.2) →
  NoDup l.*1 → rule ∈ l →
  filter (for_rule rule) (g <$> filter V l) =
    if decide (V rule) then [g rule] else [].
Proof.
  intros Hg1 Hg2. induction l as [|x l IH]; [by intros _ ?%elem_of_nil|].
  rewrite fmap_cons, NoDup_cons. intros [Hx Hnd] [->|Hin]%elem_of_cons.
  - rewrite filter_cons. case_decide.
    + rewrite fmap_cons, filter_cons, decide_True by (split; [apply Hg1|apply Hg2]).
      by rewrite filter_for_rule_absent.
    + by rewrite filter_for_rule_absent.
  - assert (x.1 ≠ rule.1) as Hne.
    { intros Heq. apply Hx. rewrite Heq. by apply list_elem_of_fmap_2. }
    rewrite filter_cons. destruct (decide (V x)); [|by apply IH].
    rewrite fmap_cons, filter_cons, decide_False; [by apply IH|].
    intros [Hr _]. rewrite Hg1 in Hr. congruence.
Qed.

(** C1: for a record that is read successfully and a rule of the
    entitlement table (a dictionary: one rule per resource), the evaluator
    produces exactly one violation entry for the pair if and only if the
    resource of the rule is among the resources of the record and the
    required package is not in the owner's package set, an owner without
    entry in the customer index owning the empty set.  The entries produced
    for the pair are that single entry, built from the record, or none. *)
Theorem process_json_file_violation_iff
    (requirements : list (str * str))
    (user_packages : gmap str (gset str)) (f : json_file)
    (server_resources owner_name owner_profile server_code : json)
    (owner_key : str) (rule : str * str) :
  NoDup requirements.*1 →
  read_record f =
    Ok (server_resources, owner_name, owner_profile, server_code, owner_key) →
  rule ∈ requirements →
  let produced :=
    filter (for_rule rule) (process_json_file requirements user_packages f).1 in
  (length produced = 1 ↔
     py_in rule.1 server_resources = Ok true ∧
     rule.2 ∉ default ∅ (user_packages !! owner_key)) ∧
  (produced = [entry f owner_name owner_profile server_code rule] ∨ produced = []).
Proof.
  intros Hnd Hread Hin produced. subst produced.
  rewrite (process_json_file_read _ _ _ _ _ _ _ _ Hread).
  destruct (iterable server_resources) eqn:Hit.
  - simpl. rewrite filter_for_rule_present by done.
    destruct (decide (violated user_packages server_resources owner_key rule))
      as [Hv|Hv]; unfold violated in Hv; simpl.
    + split; [done|by left].
    + split; [|by right]. split; [discriminate|done].
  - assert (requirements ≠ []) by (intros ->; by apply elem_of_nil in Hin).
    rewrite decide_False by done. simpl. split; [|by right].
    split; [discriminate|]. intros [Hraise _].
    rewrite (py_in_not_iterable _ _ Hit) in Hraise. discriminate.
Qed.

(** C3: the evaluator is total and never lets a fault of the [try] block
    escape.  Either the block completes and its list is returned without
    diagnostic, or it raises and the evaluator returns no violation together
    with a diagnostic made of a fixed prefix, the name of the record's file
    and the text of the exception. *)
Theorem process_json_file_never_raises
    (requirements : list (str * str))
    (user_packages : gmap str (gset str)) (f : json_file) :
  (∃ vs, try_body requirements user_packages f = Ok vs ∧
         process_json_file requirements user_packages f = (vs, None)) ∨
  (∃ e prefix,
      try_body requirements user_packages f = Raise e ∧
      prefix ∈ [u "Error reading "; u "Unexpected error with "] ∧
      process_json_file requirements user_packages f =
        ([], Some (prefix ++ name f ++ u ": " ++ exn_str e))).
Proof.
  unfold process_json_file.
  destruct (try_body requirements user_packages f) as [vs|e]; [left; eauto|].
  right. exists e. unfold except.
  destruct (exn_cls e); eexists; (split; [done|]); (split; [|done]);
    repeat first [by apply list_elem_of_here | apply list_elem_of_further].
Qed.

(** C4 (amended): a record whose top-level object has no [Data] key is
    evaluated with the defaults of the source, an empty resource list and
    the owner [N/A]: no violation and no diagnostic, for every table. *)
Theorem process_json_file_no_Data
    (requirements : list (str * str))
    (user_packages : gmap str (gset str))
    (file : str) (items : list (str * json)) :
  dict_get items "Data" = None →
  process_json_file requirements user_packages
    (JsonFile file (Loads (JObj items))) = ([], None).
Proof.
  intros Hnone.
  rewrite (process_json_file_read _ _ _ (JList []) (JStr "N/A") (JStr "N/A")
             (default (JStr "N/A") (dict_get items "EndPoint")) (lower "N/A")).
  - simpl. f_equal. induction requirements as [|rule l IH]; [done|].
    rewrite filter_cons, decide_False; [done|]. intros [[=] _].
  - unfold read_record, json_load. simpl. rewrite Hnone. reflexivity.
Qed.

(** The records on which the evaluator reports a fault before the loop are
    those whose file does not load or loads a value of another shape. *)
Lemma read_record_readable f :
  (∃ locals, read_record f = Ok locals) ↔
  ∃ data, content f = Loads data ∧ readable data = true.
Proof.
  unfold read_record, json_load. destruct (content f) as [msg|msg|msg|e|data].
  1-4: split; [by intros [? [=]]|by intros (? & [=] & _)].
  split.
  - intros [locals Hread]. exists data. split; [done|].
    destruct data as [| | | | | |items]; try done. simpl in *.
    destruct (default (JObj []) (dict_get items "Data")) as [| | | | | |d]; try done.
    simpl in *.
    by destruct (default (JStr "N/A") (dict_get d "ownerName")).
  - intros (? & [= <-] & Hshape).
    destruct data as [| | | | | |items]; try done. simpl in *.
    destruct (default (JObj []) (dict_get items "Data")) as [| | | | | |d]; try done.
    simpl in *.
    destruct (default (JStr "N/A") (dict_get d "ownerName")); try done.
    simpl. eauto.
Qed.

(** The value searched for the resources of a record that could be read. *)
Lemma read_record_resources f data sr on op sc ok :
  content f = Loads data →
  read_record f = Ok (sr, on, op, sc, ok) → sr = resources_of data.
Proof.
  unfold read_record, json_load. intros ->.
  destruct data as [| | | | | |items]; try done. simpl.
  destruct (default (JObj []) (dict_get items "Data")) as [| | | | | |d]; try done.
  simpl.
  destruct (default (JStr "N/A") (dict_get d "ownerName")); try done.
  simpl. by intros [= <- _ _ _ _].
Qed.

(** A fault leaves no violation behind, and its diagnostic is never the
    empty string, so the scan prints it. *)
Lemma process_json_file_fault requirements user_packages f msg :
  (process_json_file requirements user_packages f).2 = Some msg →
  (process_json_file requirements user_packages f).1 = [] ∧ truthy msg = true.
Proof.
  unfold process_json_file.
  destruct (try_body requirements user_packages f) as [vs|e]; [done|].
  simpl. intros [= <-]. split; [done|]. unfold except.
  by destruct (exn_cls e).
Qed.

(** A record of another shape always brings a diagnostic. *)
Lemma process_json_file_unreadable requirements user_packages f :
  ¬ (∃ data, content f = Loads data ∧ readable data = true) →
  is_Some (process_json_file requirements user_packages f).2.
Proof.
  intros Hshape. destruct (read_record f) as [locals|e] eqn:Hread.
  - destruct Hshape. apply read_record_readable. eauto.
  - rewrite (process_json_file_unread _ _ _ _ Hread). simpl. eauto.
Qed.

(** The records that bring a diagnostic are the faulty ones. *)
Lemma process_json_file_faulty requirements user_packages f :
  is_Some (process_json_file requirements user_packages f).2 ↔
  faulty requirements f.
Proof.
  unfold faulty.
  destruct (read_record f) as [[[[[sr on] op] sc] ok]|e] eqn:Hread.
  - destruct (proj1 (read_record_readable f)) as (data & Hdata & Hshape); [eauto|].
    rewrite Hdata, Hshape.
    rewrite <- (read_record_resources f data sr on op sc ok Hdata Hread).
    rewrite (process_json_file_read _ _ _ _ _ _ _ _ Hread).
    destruct (iterable sr).
    + simpl. split; [by intros [? [=]]|]. by intros [[=]|[_ [=]]].
    + case_decide as Hreq; simpl.
      * split; [by intros [? [=]]|]. by intros [[=]|[? _]].
      * split; [|eauto]. intros _. by right.
  - rewrite (process_json_file_unread _ _ _ _ Hread). simpl.
    split; [|eauto]. intros _.
    destruct (content f) as [msg|msg|msg|e'|data] eqn:Hdata; try done.
    left. destruct (readable data) eqn:Hshape; [|done].
    destruct (proj2 (read_record_readable f)) as [locals Hok]; [eauto|].
    congruence.
Qed.

(** Without rules no record has a violation. *)
Lemma process_json_file_no_rule user_packages f :
  (process_json_file [] user_packages f).1 = [].
Proof.
  destruct (read_record f) as [[[[[sr on] op] sc] ok]|e] eqn:Hread.
  - rewrite (process_json_file_read _ _ _ _ _ _ _ _ Hread).
    by destruct (iterable sr).
  - by rewrite (process_json_file_unread _ _ _ _ Hread).
Qed.

(** ** The scan coordinator *)

(** The collection loop: what each local variable holds and what has been
    printed once the results [rs] have arrived. *)
Lemma foldl_collect total_files rs st :
  let st' := foldl (collect total_files) st rs in
  unauthorized_servers st' = unauthorized_servers st ++ mjoin rs.*1 ∧
  processed_files st' = processed_files st + length rs ∧
  found_servers st' = found_servers st + length (mjoin rs.*1) ∧
  diagnostics (trace st') =
    diagnostics (trace st) ++ filter (λ msg, truthy msg) (omap snd rs) ∧
  submitted (trace st') = submitted (trace st).
Proof.
  revert st. induction rs as [|[result error] rs IH]; intros st; cbn zeta.
  { simpl. rewrite !app_nil_r. repeat split; lia. }
  destruct (IH (collect total_files st (result, error))) as (IH1 & IH2 & IH3 & IH4 & IH5).
  change (foldl (collect total_files) st ((result, error) :: rs))
    with (foldl (collect total_files) (collect total_files st (result, error)) rs).
  rewrite IH1, IH2, IH3, IH4, IH5. clear IH IH1 IH2 IH3 IH4 IH5.
  change (mjoin ((result, error) :: rs).*1) with (result ++ mjoin rs.*1).
  change (omap snd ((result, error) :: rs))
    with (match error with Some msg => msg :: omap snd rs | None => omap snd rs end).
  generalize (mjoin rs.*1) (omap snd rs). intros later_results later_errors.
  unfold diagnostics, submitted.
  destruct result as [|v result], error as [msg|]; simpl;
    try destruct (truthy msg) eqn:Hmsg; simpl;
    rewrite ?omap_app, ?filter_cons, ?Hmsg, ?length_app; simpl;
    rewrite ?app_nil_r, <- ?app_assoc; simpl;
    repeat split; try done; try lia.
Qed.

Lemma filter_Forall_id {A} (P : A → Prop) `{∀ x, Decision (P x)} (l : list A) :
  Forall P l → filter P l = l.
Proof.
  induction 1 as [|x l Hx _ IH]; [done|]. by rewrite filter_cons_True, IH.
Qed.

Lemma filter_Forall_not {A} (P : A → Prop) `{∀ x, Decision (P x)} (l : list A) :
  Forall (λ x, ¬ P x) l → filter P l = [].
Proof.
  induction 1 as [|x l Hx _ IH]; [done|]. by rewrite filter_cons_False.
Qed.

(** Every diagnostic of the evaluator is printed by the loop. *)
Lemma outcomes_errors_truthy requirements user_packages records :
  filter (λ msg, truthy msg) (omap snd (outcomes requirements user_packages records))
  = omap snd (outcomes requirements user_packages records).
Proof.
  apply filter_Forall_id, Forall_forall. intros msg.
  unfold outcomes. intros ([vs e] & (f & Hf & _)%list_elem_of_fmap & He)%list_elem_of_omap.
  simpl in He. subst e.
  destruct (process_json_file_fault requirements user_packages f msg) as [_ ->];
    [by rewrite <- Hf|done].
Qed.

(** A realizable run of the scan, seen through its observations. *)
Lemma scan_servers_parallel_run requirements user_packages json_files completed :
  as_completed json_files completed →
  let run := scan_servers_parallel requirements user_packages json_files completed in
  violations run = mjoin (outcomes requirements user_packages completed).*1 ∧
  processedCount run = length json_files ∧
  foundCount run = length (violations run) ∧
  diagnostics run.2 = omap snd (outcomes requirements user_packages completed) ∧
  submitted run.2 = json_files.
Proof.
  intros Hperm run. subst run. unfold as_completed in Hperm.
  unfold scan_servers_parallel, violations, processedCount, foundCount.
  destruct json_files as [|f json_files].
  { apply Permutation_nil in Hperm as ->. done. }
  cbn [length Nat.eqb fst snd].
  set (st0 := ScanState _ _ _ _).
  destruct (foldl_collect (S (length json_files))
              (outcomes requirements user_packages completed) st0)
    as (H1 & H2 & H3 & H4 & H5).
  unfold outcomes in *. rewrite H1, H2, H3. simpl.
  split; [done|]. split.
  { rewrite length_fmap, <- Hperm. done. }
  split; [done|].
  unfold diagnostics, submitted in *. rewrite !omap_app, H4, H5. simpl.
  rewrite !app_nil_r. split.
  - assert (∀ l : list json_file, omap
      (λ ev, match ev with Print (ErrorLine msg) => Some msg | _ => None end)
      (Submit <$> l) = []) as -> by (induction l; done).
    simpl. apply outcomes_errors_truthy.
  - f_equal. clear. induction json_files; simpl; by f_equal.
Qed.

(** C2 (amended): the scan returns the violations in the order in which the
    workers complete: the list is the concatenation, in completion order, of
    the lists that the evaluator returns for the records.  It holds the same
    entries as the concatenation in enumeration order, and no sort is applied
    to it. *)
Theorem scan_violations_in_completion_order
    (requirements : list (str * str))
    (user_packages : gmap str (gset str))
    (json_files completed : list json_file) :
  as_completed json_files completed →
  let run := scan_servers_parallel requirements user_packages json_files completed in
  violations run = mjoin (outcomes requirements user_packages completed).*1 ∧
  violations run ≡ₚ mjoin (outcomes requirements user_packages json_files).*1.
Proof.
  intros Hperm run.
  destruct (scan_servers_parallel_run requirements user_packages json_files
              completed Hperm) as (Hv & _).
  fold run in Hv. split; [done|]. rewrite Hv. unfold outcomes.
  unfold as_completed in Hperm. by rewrite Hperm.
Qed.

(** C5 (amended): the scan reports each per-record diagnostic by printing
    it when the record's result arrives, so that all of them appear on the
    output in completion order.  The value it returns is the triple of the
    violations, the number of processed files and the number of violations;
    it holds no diagnostic. *)
Theorem scan_prints_diagnostics
    (requirements : list (str * str))
    (user_packages : gmap str (gset str))
    (json_files completed : list json_file) :
  as_completed json_files completed →
  let run := scan_servers_parallel requirements user_packages json_files completed in
  let per_record := outcomes requirements user_packages completed in
  diagnostics run.2 = omap snd per_record ∧
  run.1 = (mjoin per_record.*1, length json_files, length (mjoin per_record.*1)).
Proof.
  intros Hperm run per_record.
  destruct (scan_servers_parallel_run requirements user_packages json_files
              completed Hperm) as (Hv & Hp & Hf & Hd & _).
  fold run per_record in Hv, Hp, Hf, Hd. split; [done|].
  unfold violations, processedCount, foundCount in *.
  destruct run as [[[vs processed] found] tr]. simpl in *. by subst.
Qed.

(** C6: with no record the scan returns no violation and the counters 0,
    reports no diagnostic and hands nothing to a worker, whatever the tables;
    with an empty entitlement table it returns no violation, whatever the
    records and the order in which they complete. *)
Theorem scan_empty_inputs
    (requirements : list (str * str))
    (user_packages : gmap str (gset str))
    (json_files completed : list json_file) :
  (let run := scan_servers_parallel requirements user_packages [] completed in
   run.1 = ([], 0, 0) ∧ diagnostics run.2 = [] ∧ submitted run.2 = []) ∧
  violations (scan_servers_parallel [] user_packages json_files completed) = [].
Proof.
  split; [done|].
  unfold scan_servers_parallel, violations.
  destruct (length json_files =? 0); [done|]. cbn [fst].
  set (st0 := ScanState _ _ _ _).
  destruct (foldl_collect (length json_files)
              (process_json_file [] user_packages <$> completed) st0) as (-> & _).
  simpl. apply join_nil, Forall_forall.
  intros vs (r & -> & (f & -> & _)%list_elem_of_fmap)%list_elem_of_fmap.
  apply process_json_file_no_rule.
Qed.

(** C10: the number of processed files that the scan returns is the number
    of records enumerated, each completed record counting once whether it
    brought violations or a diagnostic, and the number of found servers is
    the length of the returned violation list. *)
Theorem scan_counters
    (requirements : list (str * str))
    (user_packages : gmap str (gset str))
    (json_files completed : list json_file) :
  as_completed json_files completed →
  let run := scan_servers_parallel requirements user_packages json_files completed in
  processedCount run = length json_files ∧
  foundCount run = length (violations run).
Proof.
  intros Hperm run.
  destruct (scan_servers_parallel_run requirements user_packages json_files
              completed Hperm) as (_ & Hp & Hf & _).
  done.
Qed.

(** ** The report order *)

#[global] Instance str_le_total : Total Str.le.
Proof.
  intros a. unfold Str.le. induction a as [|x a IH]; intros [|y b]; simpl; auto.
  rewrite (N.compare_antisym x y). destruct (x ?= y)%N; simpl; auto.
Qed.

#[global] Instance str_le_trans : Transitive Str.le.
Proof.
  intros a. unfold Str.le.
  induction a as [|x a IH]; intros [|y b] [|z c]; simpl; try done.
  destruct (x ?= y)%N eqn:Hxy, (y ?= z)%N eqn:Hyz; try done.
  - apply N.compare_eq in Hxy as ->. rewrite Hyz. apply IH.
  - apply N.compare_eq in Hxy as ->. by rewrite Hyz.
  - apply N.compare_eq in Hyz as <-. by rewrite Hxy.
  - rewrite N.compare_lt_iff in Hxy, Hyz.
    assert (x < z)%N as Hxz by lia. apply N.compare_lt_iff in Hxz. by rewrite Hxz.
Qed.

#[global] Instance str_le_anti_symm : AntiSymm (=) Str.le.
Proof.
  intros a. unfold Str.le.
  induction a as [|x a IH]; intros [|y b]; simpl; try done.
  rewrite (N.compare_antisym y x).
  destruct (y ?= x)%N eqn:Hyx; simpl; try done.
  apply N.compare_eq in Hyx as ->. intros H1 H2. f_equal. by apply IH.
Qed.

#[global] Instance key_le_total : Total key_le.
Proof.
  intros v1 v2. unfold key_le.
  destruct (decide (file_name v1 = file_name v2)) as [Heq|Hne].
  - rewrite decide_True by done. apply (total Str.le).
  - rewrite decide_False by done. apply (total Str.le).
Qed.

#[global] Instance key_le_trans : Transitive key_le.
Proof.
  intros v1 v2 v3. unfold key_le.
  destruct (decide (file_name v1 = file_name v2)) as [H12|H12],
    (decide (file_name v2 = file_name v3)) as [H23|H23].
  - rewrite decide_True by congruence. by etrans.
  - rewrite decide_False by congruence. by rewrite H12.
  - rewrite decide_False by congruence. by rewrite <- H23.
  - intros Hle12 Hle23. case_decide as H13.
    + rewrite <- H13 in Hle23. destruct H12. by apply (anti_symm Str.le).
    + by etrans.
Qed.

(** Two entries that precede each other have the same key. *)
Lemma key_le_anti_symm v1 v2 :
  key_le v1 v2 → key_le v2 v1 →
  file_name v1 = file_name v2 ∧ resource v1 = resource v2.
Proof.
  unfold key_le. destruct (decide (file_name v1 = file_name v2)) as [Heq|Hne].
  - rewrite decide_True by done. intros. split; [done|].
    by apply (anti_symm Str.le).
  - rewrite decide_False by done. intros. destruct Hne.
    by apply (anti_symm Str.le).
Qed.

Lemma NoDup_fmap_inj_on {A B} (g : A → B) (l : list A) x y :
  NoDup (g <$> l) → x ∈ l → y ∈ l → g x = g y → x = y.
Proof.
  induction l as [|a l IH]; [by intros _ ?%elem_of_nil|].
  rewrite fmap_cons, NoDup_cons. intros [Ha Hl] Hx Hy Heq.
  apply elem_of_cons in Hx as [->|Hx]; apply elem_of_cons in Hy as [->|Hy].
  - done.
  - destruct Ha. rewrite Heq. by apply list_elem_of_fmap_2.
  - destruct Ha. rewrite <- Heq. by apply list_elem_of_fmap_2.
  - by apply IH.
Qed.

(** Where an entry of a run comes from. *)
Lemma elem_of_outcomes requirements user_packages records v :
  v ∈ mjoin (outcomes requirements user_packages records).*1 →
  ∃ f, f ∈ records ∧ v ∈ (process_json_file requirements user_packages f).1.
Proof.
  intros (vs & Hv & Hvs)%list_elem_of_join.
  apply list_elem_of_fmap in Hvs as (r & -> & Hr).
  apply list_elem_of_fmap in Hr as (f & -> & Hf). eauto.
Qed.

(** Within one record, the resource identifies the entry. *)
Lemma process_json_file_key_inj requirements user_packages f v1 v2 :
  NoDup requirements.*1 →
  v1 ∈ (process_json_file requirements user_packages f).1 →
  v2 ∈ (process_json_file requirements user_packages f).1 →
  resource v1 = resource v2 → v1 = v2.
Proof.
  intros Hnd.
  destruct (read_record f) as [[[[[sr on] op] sc] ok]|e] eqn:Hread.
  - rewrite (process_json_file_read _ _ _ _ _ _ _ _ Hread).
    destruct (iterable sr); [|case_decide; simpl; by intros ?%elem_of_nil].
    simpl. intros (r1 & -> & Hr1)%list_elem_of_fmap (r2 & -> & Hr2)%list_elem_of_fmap.
    simpl. intros Heq. f_equal.
    apply list_elem_of_filter in Hr1 as [_ Hr1].
    apply list_elem_of_filter in Hr2 as [_ Hr2].
    by apply (NoDup_fmap_inj_on fst requirements).
  - rewrite (process_json_file_unread _ _ _ _ Hread). simpl. by intros ?%elem_of_nil.
Qed.

(** In a run over files with distinct names and a table with distinct
    resources, no two entries share the key of the report order. *)
Lemma outcomes_key_inj requirements user_packages records v1 v2 :
  NoDup requirements.*1 → NoDup (name <$> records) →
  v1 ∈ mjoin (outcomes requirements user_packages records).*1 →
  v2 ∈ mjoin (outcomes requirements user_packages records).*1 →
  file_name v1 = file_name v2 → resource v1 = resource v2 → v1 = v2.
Proof.
  intros Hreq Hnames (f1 & Hf1 & Hv1)%elem_of_outcomes
    (f2 & Hf2 & Hv2)%elem_of_outcomes Hfile Hres.
  assert (f1 = f2) as ->.
  { apply (NoDup_fmap_inj_on name records); [done..|].
    rewrite <- (process_json_file_file_name _ _ _ _ Hv1).
    rewrite <- (process_json_file_file_name _ _ _ _ Hv2). done. }
  by apply (process_json_file_key_inj requirements user_packages f2).
Qed.

(** The entries of a run that carry the name of a record are those of the
    evaluation of that record, in order. *)
Lemma outcomes_of_other_record requirements user_packages records file :
  file ∉ name <$> records →
  filter (λ v, file_name v = file)
    (mjoin (outcomes requirements user_packages records).*1) = [].
Proof.
  intros Hfile. apply filter_Forall_not, Forall_forall.
  intros v (f & Hf & Hv)%elem_of_outcomes Heq. apply Hfile.
  rewrite <- Heq, (process_json_file_file_name _ _ _ _ Hv).
  by apply list_elem_of_fmap_2.
Qed.

Lemma outcomes_of_record requirements user_packages records f :
  NoDup (name <$> records) → f ∈ records →
  filter (λ v, file_name v = name f)
    (mjoin (outcomes requirements user_packages records).*1)
  = (process_json_file requirements user_packages f).1.
Proof.
  induction records as [|g l IH]; [by intros _ ?%elem_of_nil|].
  rewrite fmap_cons, NoDup_cons. intros [Hg Hl] Hf.
  change (mjoin (outcomes requirements user_packages (g :: l)).*1)
    with ((process_json_file requirements user_packages g).1 ++
          mjoin (outcomes requirements user_packages l).*1).
  rewrite filter_app.
  destruct (decide (name g = name f)) as [Heq|Hne].
  - assert (f = g) as ->.
    { apply elem_of_cons in Hf as [->|Hf]; [done|].
      destruct Hg. rewrite Heq. by apply list_elem_of_fmap_2. }
    rewrite outcomes_of_other_record by done. rewrite app_nil_r.
    apply filter_Forall_id, Forall_forall.
    intros v Hv. by apply (process_json_file_file_name requirements user_packages).
  - apply elem_of_cons in Hf as [->|Hf]; [done|].
    rewrite IH by done.
    rewrite filter_Forall_not; [done|]. apply Forall_forall. intros v Hv Hvf.
    apply Hne. by rewrite <- (process_json_file_file_name _ _ _ _ Hv).
Qed.

(** C8 (amended): adding to a record set one record that cannot be
    evaluated (its file does not load, or loads a value that is not an
    object, or whose [Data] is not an object, or whose [ownerName] is not a
    string, or whose resources cannot be searched while the table has a rule)
    adds exactly one diagnostic to those the scan reports and leaves the
    violations unchanged, whatever the order in which the records of either
    run complete: the two violation lists hold the same entries and, the
    files having distinct names, the entries of every other record are, in
    both runs, those of the evaluation of that record alone. *)
Theorem scan_isolation
    (requirements : list (str * str))
    (user_packages : gmap str (gset str))
    (json_files completed completed' : list json_file) (bad : json_file) :
  as_completed json_files completed →
  as_completed (bad :: json_files) completed' →
  faulty requirements bad →
  NoDup (name <$> bad :: json_files) →
  let run := scan_servers_parallel requirements user_packages json_files completed in
  let run' :=
    scan_servers_parallel requirements user_packages (bad :: json_files) completed' in
  length (diagnostics run'.2) = S (length (diagnostics run.2)) ∧
  violations run' ≡ₚ violations run ∧
  ∀ f, f ∈ json_files →
    filter (λ v, file_name v = name f) (violations run')
      = (process_json_file requirements user_packages f).1 ∧
    filter (λ v, file_name v = name f) (violations run)
      = (process_json_file requirements user_packages f).1.
Proof.
  intros Hperm Hperm' Hfaulty Hnames run run'.
  apply (process_json_file_faulty requirements user_packages) in Hfaulty
    as [msg Hbad].
  destruct (scan_servers_parallel_run requirements user_packages json_files
              completed Hperm) as (Hv & _ & _ & Hd & _).
  destruct (scan_servers_parallel_run requirements user_packages (bad :: json_files)
              completed' Hperm') as (Hv' & _ & _ & Hd' & _).
  fold run in Hv, Hd. fold run' in Hv', Hd'. rewrite Hv, Hv', Hd, Hd'.
  unfold as_completed in *.
  assert (completed' ≡ₚ bad :: completed) as Hall by (by rewrite <- Hperm', Hperm).
  destruct (process_json_file_fault _ _ _ _ Hbad) as [Hnone _].
  split; [|split].
  - unfold outcomes. rewrite Hall, fmap_cons. simpl. by rewrite Hbad.
  - unfold outcomes. rewrite Hall, !fmap_cons. simpl. by rewrite Hnone.
  - intros f Hf. split.
    + apply outcomes_of_record.
      * by rewrite <- Hperm'.
      * rewrite <- Hperm'. by right.
    + apply outcomes_of_record.
      * rewrite <- Hperm. by apply NoDup_cons in Hnames as [_ ?].
      * by rewrite <- Hperm.
Qed.

(** C9: two runs of the scan over the same tables and the same records,
    files with distinct names and a table with one rule per resource,
    return the same violations up to their order, whatever the orders in
    which the records complete, and the two lists are equal once sorted by
    source identifier and resource. *)
Theorem scan_idempotent
    (requirements : list (str * str))
    (user_packages : gmap str (gset str))
    (json_files completed1 completed2 : list json_file) :
  NoDup requirements.*1 →
  NoDup (name <$> json_files) →
  as_completed json_files completed1 →
  as_completed json_files completed2 →
  let run1 := scan_servers_parallel requirements user_packages json_files completed1 in
  let run2 := scan_servers_parallel requirements user_packages json_files completed2 in
  violations run1 ≡ₚ violations run2 ∧
  sort_violations (violations run1) = sort_violations (violations run2).
Proof.
  intros Hreq Hnames Hperm1 Hperm2 run1 run2.
  destruct (scan_servers_parallel_run requirements user_packages json_files
              completed1 Hperm1) as (Hv1 & _).
  destruct (scan_servers_parallel_run requirements user_packages json_files
              completed2 Hperm2) as (Hv2 & _).
  fold run1 in Hv1. fold run2 in Hv2. unfold as_completed in *.
  assert (violations run1 ≡ₚ violations run2) as Hsame.
  { rewrite Hv1, Hv2. unfold outcomes. by rewrite <- Hperm1, Hperm2. }
  split; [done|]. unfold sort_violations.
  apply (Sorted_unique_strong key_le).
  - intros v1 v2 Hin1 Hin2 Hle Hge.
    rewrite merge_sort_Permutation in Hin1, Hin2.
    rewrite <- Hsame, Hv1 in Hin2. rewrite Hv1 in Hin1.
    destruct (key_le_anti_symm v1 v2 Hle Hge) as [Hfile Hres].
    apply (outcomes_key_inj requirements user_packages completed1); try done.
    by rewrite <- Hperm1.
  - apply Sorted_merge_sort, _.
  - apply Sorted_merge_sort, _.
  - by rewrite !merge_sort_Permutation.
Qed.

(** ** The customer index *)

(** *** Pieces of a [Packages] field *)

Lemma isspace_is_sep c :
  Str.isspace c = true →
  is_wrapper c = false ∧ N.eqb c 59 = false ∧ Str.is_sep c = true.
Proof.
  intros H.
  assert (c ≠ 91 ∧ c ≠ 93 ∧ c ≠ 34 ∧ c ≠ 59)%N as (H1 & H2 & H3 & H4).
  { repeat split; intros ->; vm_compute in H; discriminate. }
  unfold is_wrapper, Str.is_sep. rewrite H, orb_true_r.
  apply N.eqb_neq in H1, H2, H3, H4. by rewrite H1, H2, H3, H4.
Qed.

Lemma is_sep_isspace c : Str.is_sep c = false → Str.isspace c = false.
Proof. unfold Str.is_sep. by intros [_ ?]%orb_false_iff. Qed.

Lemma reverse_no_sep s : no_sep s → no_sep (reverse s).
Proof. apply Forall_reverse. Qed.

Lemma re_split_go_no_sep cur in_run s :
  no_sep cur → Forall no_sep (Str.re_split_go cur in_run s).
Proof.
  revert cur in_run. induction s as [|c s IH]; intros cur in_run Hcur; simpl.
  - constructor; [|done]. by apply reverse_no_sep.
  - destruct (Str.is_sep c) eqn:Hc; [destruct in_run|].
    + apply IH. constructor.
    + constructor; [by apply reverse_no_sep|]. apply IH. constructor.
    + apply IH. by constructor.
Qed.

(** A piece of [re.split] has no blank to strip. *)
Lemma strip_no_sep s : no_sep s → Str.strip s = s.
Proof.
  intros Hs. unfold Str.strip.
  assert (Str.lstrip s = s) as ->.
  { destruct Hs as [|c s Hc _]; [done|]. simpl. by rewrite (is_sep_isspace c). }
  induction Hs as [|c s Hc _ IH]; [done|]. simpl.
  rewrite IH, (is_sep_isspace c) by done. by destruct s.
Qed.

(** Splitting at the runs of separators and splitting at each separator
    give the same non-empty pieces. *)
Lemma re_split_go_split_each cur in_run s :
  (in_run = true → cur = []) →
  filter (λ p, p ≠ []) (Str.re_split_go cur in_run s) =
  filter (λ p, p ≠ []) (split_each cur s).
Proof.
  revert cur in_run. induction s as [|c s IH]; intros cur in_run Hrun; simpl; [done|].
  destruct (Str.is_sep c); [destruct in_run|].
  - rewrite (Hrun eq_refl). rewrite filter_cons_False by (by intros []).
    by apply IH.
  - rewrite !filter_cons. by rewrite IH.
  - by apply IH.
Qed.

(** The four replacements of the source amount to [clean]. *)
Lemma replace_clean s :
  Str.replace_char 59 44
    (Str.remove_char 34 (Str.remove_char 93 (Str.remove_char 91 s)))
  = clean s.
Proof.
  induction s as [|c s IH]; [done|]. simpl. unfold is_wrapper.
  destruct (N.eqb c 91) eqn:H1; simpl; [done|].
  destruct (N.eqb c 93) eqn:H2; simpl; [done|].
  destruct (N.eqb c 34) eqn:H3; simpl; [done|].
  by rewrite IH.
Qed.

Lemma pieces_cons c s1 s2 :
  (∀ cur, pieces cur s1 = pieces cur s2) →
  ∀ cur, pieces cur (c :: s1) = pieces cur (c :: s2).
Proof.
  intros Hs cur. unfold pieces in *. simpl.
  destruct (is_wrapper c); [done|]. simpl.
  destruct (Str.is_sep _); [|done]. by rewrite !filter_cons, Hs.
Qed.

Lemma pieces_lstrip s : pieces [] (Str.lstrip s) = pieces [] s.
Proof.
  induction s as [|c s IH]; [done|]. simpl.
  destruct (Str.isspace c) eqn:Hc; [|done].
  destruct (isspace_is_sep c Hc) as (Hw & Hsemi & Hsep).
  rewrite IH. unfold pieces. simpl. rewrite Hw, Hsemi. simpl. rewrite Hsep.
  by rewrite filter_cons_False by (by intros []).
Qed.

Lemma pieces_rstrip s cur : pieces cur (Str.rstrip s) = pieces cur s.
Proof.
  revert cur. induction s as [|c s IH]; [done|]. simpl.
  destruct (Str.rstrip s) as [|d r] eqn:Hr; [|by apply pieces_cons].
  destruct (Str.isspace c) eqn:Hc; [|by apply pieces_cons].
  intros cur. destruct (isspace_is_sep c Hc) as (Hw & Hsemi & Hsep).
  pose proof (IH []) as Hrest.
  unfold pieces in *. simpl in *. rewrite Hw, Hsemi. simpl. rewrite Hsep.
  change (reverse cur :: split_each [] (clean s))
    with ([reverse cur] ++ split_each [] (clean s)).
  rewrite filter_app, <- Hrest.
  rewrite (filter_cons_False _ (reverse [])) by (by intros []).
  by rewrite filter_nil, app_nil_r.
Qed.

(** The packages that the source reads in a field are the non-empty pieces
    of the specification. *)
Lemma owned_packages_of_strip field :
  owned_packages_of (Str.strip field) = packages field.
Proof.
  unfold owned_packages_of, packages. rewrite replace_clean.
  assert (pieces [] field
          = filter (λ p, p ≠ []) (Str.re_split (clean (Str.strip field))))
    as ->.
  { unfold Str.re_split. rewrite re_split_go_split_each by done.
    fold (pieces [] (Str.strip field)).
    unfold Str.strip. by rewrite pieces_rstrip, pieces_lstrip. }
  pose proof (re_split_go_no_sep [] false
                (clean (Str.strip field)) (Forall_nil_2 _)) as Hno.
  fold (Str.re_split (clean (Str.strip field))) in Hno.
  rewrite Forall_forall in Hno.
  apply set_eq. intros p.
  rewrite elem_of_map, elem_of_list_to_set, list_elem_of_filter. split.
  - intros (q & -> & [Hq Hin]%elem_of_filter).
    apply elem_of_list_to_set in Hin.
    rewrite (strip_no_sep q) in * by (by apply Hno). done.
  - intros [Hp Hin]. exists p.
    rewrite (strip_no_sep p) by (by apply Hno). split; [done|].
    apply elem_of_filter. rewrite (strip_no_sep p) by (by apply Hno).
    split; [done|]. by apply elem_of_list_to_set.
Qed.

(** *** Rows *)

(** A readable row is filed under its key, its packages joining those
    already held under that key. *)
Lemma add_row_well_formed (user_packages : gmap str (gset str)) (r : row) :
  well_formed r →
  add_row user_packages r =
    Ok (match row_key r with
        | Some key =>
            <[key := default ∅ (user_packages !! key) ∪ row_packages r]>
              user_packages
        | None => user_packages
        end).
Proof.
  intros [[username Hu] [p Hp]]. unfold add_row, row_key, row_packages.
  rewrite Hu, Hp. simpl.
  destruct (truthy (Str.strip username)); [|done].
  rewrite owned_packages_of_strip. f_equal.
  case_decide as Hdom; [done|].
  apply not_elem_of_dom in Hdom. rewrite Hdom, lookup_insert_eq. simpl.
  by rewrite insert_insert_eq.
Qed.

(** The loop over the rows, from any index built so far. *)
Lemma for_rows_index (rows : list row) (user_packages : gmap str (gset str)) :
  Forall well_formed rows →
  ∃ user_packages', for_rows user_packages rows = Ok user_packages' ∧
    ∀ key,
      user_packages' !! key =
        match filter (λ r, row_key r = Some key) rows with
        | [] => user_packages !! key
        | rs =>
            Some (default ∅ (user_packages !! key) ∪ ⋃ (row_packages <$> rs))
        end.
Proof.
  intros Hrows. revert user_packages.
  induction Hrows as [|r rows Hr _ IH]; intros user_packages.
  { exists user_packages. done. }
  simpl. rewrite (add_row_well_formed _ _ Hr). simpl.
  set (m1 := match row_key r with Some _ => _ | None => _ end).
  destruct (IH m1) as (m' & -> & Hm'). exists m'. split; [done|].
  intros key. rewrite Hm', filter_cons. clear Hm'.
  destruct (decide (row_key r = Some key)) as [Hkey|Hkey].
  - subst m1. rewrite Hkey, lookup_insert_eq. simpl.
    destruct (filter _ rows) as [|r' rs]; simpl; f_equal.
    + by rewrite (right_id_L ∅ (∪)).
    + symmetry. apply (assoc_L (∪)).
  - assert (m1 !! key = user_packages !! key) as ->; [|done].
    subst m1. destruct (row_key r) as [key'|]; [|done].
    apply lookup_insert_ne. congruence.
Qed.


(** * Further properties *)

(** ** Strings *)

Lemma rstrip_cons_nonspace c s :
  Str.isspace c = false → Str.rstrip (c :: s) = c :: Str.rstrip s.
Proof. intros Hc. simpl. rewrite Hc. by destruct (Str.rstrip s). Qed.

Lemma rstrip_rstrip s : Str.rstrip (Str.rstrip s) = Str.rstrip s.
Proof.
  induction s as [|c s IH]; [done|]. simpl.
  destruct (Str.rstrip s) as [|d r] eqn:Hr.
  - destruct (Str.isspace c) eqn:Hc; [done|]. simpl. by rewrite Hc.
  - change (Str.rstrip (c :: d :: r))
      with (match Str.rstrip (d :: r) with
            | [] => if Str.isspace c then [] else [c]
            | r' => c :: r'
            end).
    by rewrite IH.
Qed.

Lemma lstrip_head s :
  Str.lstrip s = [] ∨ ∃ c t, Str.lstrip s = c :: t ∧ Str.isspace c = false.
Proof.
  induction s as [|c s IH]; [by left|]. simpl.
  destruct (Str.isspace c) eqn:Hc; [done|]. right. eauto.
Qed.

(** [strip] is idempotent. *)
Lemma strip_strip s : Str.strip (Str.strip s) = Str.strip s.
Proof.
  unfold Str.strip. destruct (lstrip_head s) as [->|(c & t & -> & Hc)]; [done|].
  rewrite (rstrip_cons_nonspace c t Hc). simpl. rewrite Hc.
  rewrite <- (rstrip_cons_nonspace c t Hc). apply rstrip_rstrip.
Qed.

(** [rstrip] keeps the first character of what it returns. *)
Lemma head_rstrip s c : head (Str.rstrip s) = Some c → head s = Some c.
Proof.
  destruct s as [|d s]; [done|]. simpl.
  destruct (Str.rstrip s); [destruct (Str.isspace d)|]; done.
Qed.

(** What [rstrip] returns does not end with a blank. *)
Lemma last_rstrip s c : last (Str.rstrip s) = Some c → Str.isspace c = false.
Proof.
  induction s as [|d s IH]; [done|]. simpl.
  destruct (Str.rstrip s) as [|e r].
  - destruct (Str.isspace d) eqn:Hd; [done|]. by intros [= <-].
  - intros Hlast. apply IH. by rewrite last_cons_cons in Hlast.
Qed.

(** What [strip] returns has no blank at either end. *)
Lemma strip_stripped s : stripped (Str.strip s).
Proof.
  unfold Str.strip. split.
  - intros c Hc%head_rstrip.
    destruct (lstrip_head s) as [Hs|(d & t & Hs & Hd)]; rewrite Hs in Hc; [done|].
    by injection Hc as <-.
  - apply last_rstrip.
Qed.

Lemma stripped_rstrip s : stripped s → Str.rstrip s = s.
Proof.
  intros [_ Hlast]. induction s as [|c s IH]; [done|]. simpl.
  destruct s as [|d s].
  - simpl. by rewrite (Hlast c).
  - rewrite IH; [done|]. intros e He. apply Hlast. by rewrite last_cons_cons.
Qed.

Lemma stripped_lstrip s : stripped s → Str.lstrip s = s.
Proof. intros [Hhead _]. destruct s as [|c s]; [done|]. simpl. by rewrite (Hhead c). Qed.

(** A string without blank at either end is left as it is by [strip]. *)
Lemma stripped_strip s : stripped s → Str.strip s = s.
Proof.
  intros Hs. unfold Str.strip. rewrite (stripped_lstrip s Hs).
  by apply stripped_rstrip.
Qed.

Lemma rstrip_app_nonempty a b :
  Str.rstrip b ≠ [] → Str.rstrip (a ++ b) = a ++ Str.rstrip b.
Proof.
  intros Hb. induction a as [|c a IH]; [done|].
  simpl. rewrite IH.
  assert (∃ d r, a ++ Str.rstrip b = d :: r) as (d & r & ->); [|done].
  destruct (Str.rstrip b) as [|d r]; [done|]. destruct a; by eexists _, _.
Qed.

Lemma rstrip_snoc_space s c :
  Str.isspace c = true → Str.rstrip (s ++ [c]) = Str.rstrip s.
Proof.
  intros Hc. induction s as [|d s IH].
  - simpl. by rewrite Hc.
  - simpl. by rewrite IH.
Qed.

(** *** The first separator *)

Lemma prefix_singleton (sep c : N) (s : str) :
  bool_decide ([sep] `prefix_of` c :: s) = N.eqb c sep.
Proof.
  destruct (N.eqb_spec c sep) as [->|Hne].
  - apply bool_decide_eq_true. by exists s.
  - apply bool_decide_eq_false. intros [k [= -> _]]. done.
Qed.

Lemma contains_split_at sep s :
  Str.contains s [sep] =
    match split_at sep s with Some _ => true | None => false end.
Proof.
  induction s as [|c s IH].
  - cbn [Str.contains split_at]. rewrite orb_false_r.
    apply bool_decide_eq_false. by intros [k [=]].
  - cbn [Str.contains split_at]. rewrite IH, prefix_singleton. clear IH.
    destruct (N.eqb c sep); [done|].
    simpl. by destruct (split_at sep s) as [[??]|].
Qed.

Lemma split1_split_at sep s :
  Str.split1 sep s =
    match split_at sep s with
    | Some (before, after) => [before; after]
    | None => [s]
    end.
Proof.
  induction s as [|c s IH]; [done|]. simpl.
  destruct (N.eqb c sep); [done|]. rewrite IH.
  by destruct (split_at sep s) as [[??]|].
Qed.

Lemma split_at_None sep s : split_at sep s = None ↔ sep ∉ s.
Proof.
  induction s as [|c s IH]; simpl.
  - split; [intros _; apply not_elem_of_nil|done].
  - rewrite not_elem_of_cons. destruct (N.eqb_spec c sep) as [->|Hne].
    + split; [done|]. by intros [[] _].
    + destruct (split_at sep s) as [[??]|].
      * split; [done|]. intros [_ Hs]. by apply IH in Hs.
      * split; [|done]. intros _. split; [done|]. by apply IH.
Qed.

Lemma split_at_app sep before after :
  sep ∉ before →
  split_at sep (before ++ sep :: after) = Some (before, after).
Proof.
  induction before as [|c before IH]; simpl.
  - by rewrite N.eqb_refl.
  - rewrite not_elem_of_cons. intros [Hc Hb].
    assert (N.eqb c sep = false) as -> by (apply N.eqb_neq; congruence).
    by rewrite IH.
Qed.

Lemma split_at_before sep s before after :
  split_at sep s = Some (before, after) → sep ∉ before.
Proof.
  revert before. induction s as [|c s IH]; intros before; simpl; [done|].
  destruct (N.eqb_spec c sep) as [->|Hne].
  { intros [= <- _]. apply not_elem_of_nil. }
  destruct (split_at sep s) as [[b a]|]; [|done].
  intros [= <- <-]. apply not_elem_of_cons. split; [congruence|]. by apply IH.
Qed.

Lemma not_elem_of_lstrip (c : N) s : c ∉ s → c ∉ Str.lstrip s.
Proof.
  induction s as [|d s IH]; [done|]. simpl.
  destruct (Str.isspace d); [|done]. rewrite not_elem_of_cons. intros [_ ?]. auto.
Qed.

Lemma not_elem_of_rstrip (c : N) s : c ∉ s → c ∉ Str.rstrip s.
Proof.
  induction s as [|d s IH]; [done|]. simpl.
  rewrite not_elem_of_cons. intros [Hd Hs]. specialize (IH Hs).
  destruct (Str.rstrip s) as [|e r]; [destruct (Str.isspace d)|].
  - apply not_elem_of_nil.
  - apply not_elem_of_cons. split; [done|apply not_elem_of_nil].
  - by apply not_elem_of_cons.
Qed.

Lemma no_colon_strip s : no_colon s → no_colon (Str.strip s).
Proof. intros. by apply not_elem_of_rstrip, not_elem_of_lstrip. Qed.

(** ** The entitlement table *)

(** *** Dictionaries *)

Lemma dict_get_set {V} (items : list (str * V)) key v key' :
  dict_get (dict_set items key v) key' =
    if decide (key = key') then Some v else dict_get items key'.
Proof.
  induction items as [|[k x] items IH]; simpl.
  - done.
  - destruct (decide (k = key)) as [->|Hk]; simpl.
    + by destruct (decide (key = key')).
    + rewrite IH. destruct (decide (k = key')) as [->|Hk']; [|done].
      by rewrite decide_False by congruence.
Qed.

Lemma dict_set_keys {V} (items : list (str * V)) key v :
  (dict_set items key v).*1 =
    if decide (key ∈ items.*1) then items.*1 else items.*1 ++ [key].
Proof.
  induction items as [|[k x] items IH]; [done|]. simpl.
  destruct (decide (k = key)) as [->|Hk].
  - by rewrite decide_True by left.
  - rewrite fmap_cons, IH. simpl.
    destruct (decide (key ∈ items.*1)) as [Hin|Hin].
    + by rewrite decide_True by (by right).
    + rewrite decide_False; [done|]. intros [?|?]%elem_of_cons; [congruence|done].
Qed.

Lemma dict_set_new {V} (items : list (str * V)) key v :
  key ∉ items.*1 → dict_set items key v = items ++ [(key, v)].
Proof.
  induction items as [|[k x] items IH]; [done|].
  rewrite fmap_cons, not_elem_of_cons. simpl. intros [Hk Hin].
  rewrite decide_False by congruence. by rewrite IH.
Qed.

Lemma elem_of_dict_set {V} (items : list (str * V)) key v kv :
  kv ∈ dict_set items key v → kv = (key, v) ∨ kv ∈ items.
Proof.
  induction items as [|[k x] items IH]; simpl.
  - intros ->%list_elem_of_singleton. by left.
  - destruct (decide (k = key)) as [->|Hk].
    + intros [->|?]%elem_of_cons; [by left|right; by right].
    + intros [->|Hin]%elem_of_cons; [right; by left|].
      destruct (IH Hin); [by left|right; by right].
Qed.

Lemma dict_get_app {V} (l1 l2 : list (str * V)) key :
  dict_get (l1 ++ l2) key =
    match dict_get l1 key with Some v => Some v | None => dict_get l2 key end.
Proof.
  induction l1 as [|[k x] l1 IH]; [done|]. simpl.
  by destruct (decide (k = key)).
Qed.

(** *** Storing the rules one after the other *)

Lemma store_rules_get rules requirements key :
  dict_get (foldl store_rule requirements rules) key =
    match dict_get (reverse rules) key with
    | Some v => Some v
    | None => dict_get requirements key
    end.
Proof.
  revert requirements. induction rules as [|[k v] rules IH]; intros requirements.
  { done. }
  simpl. rewrite IH, reverse_cons, dict_get_app. unfold store_rule. simpl.
  rewrite dict_get_set.
  destruct (dict_get (reverse rules) key); [done|].
  by destruct (decide (k = key)).
Qed.

Lemma first_occurrences_elem l x : x ∈ first_occurrences l ↔ x ∈ l.
Proof.
  induction l as [|y l IH]; [done|]. simpl.
  rewrite !elem_of_cons, list_elem_of_filter, IH.
  destruct (decide (x = y)); tauto.
Qed.

Lemma first_occurrences_NoDup l : NoDup (first_occurrences l).
Proof.
  induction l as [|y l IH]; simpl; [constructor|].
  apply NoDup_cons. split; [|by apply NoDup_filter].
  by intros [? _]%list_elem_of_filter.
Qed.

Lemma store_rules_keys rules requirements :
  (foldl store_rule requirements rules).*1 =
    requirements.*1 ++
    filter (λ k, k ∉ requirements.*1) (first_occurrences rules.*1).
Proof.
  revert requirements. induction rules as [|[k v] rules IH]; intros requirements.
  { simpl. by rewrite app_nil_r. }
  simpl. rewrite IH. unfold store_rule. simpl. rewrite dict_set_keys.
  rewrite filter_cons, list_filter_filter.
  destruct (decide (k ∈ requirements.*1)) as [Hin|Hin].
  - rewrite decide_False by tauto. f_equal.
    apply list_filter_iff. intros x. split; [|tauto].
    intros Hx. split; [done|]. congruence.
  - rewrite decide_True by done. rewrite <- app_assoc. simpl. do 2 f_equal.
    apply list_filter_iff. intros x.
    rewrite elem_of_app, list_elem_of_singleton. tauto.
Qed.

(** *** The loader *)

(** What a line does to the table. *)
Lemma add_requirement_rule requirements line :
  add_requirement requirements line =
    Some (from_option (store_rule requirements) requirements (rule_of_line line)).
Proof.
  unfold add_requirement, rule_of_line.
  change (u ":") with [58%N].
  rewrite (contains_split_at 58 (Str.strip line)), split1_split_at.
  destruct (Str.strip line) as [|c s] eqn:Hline; [done|].
  destruct (split_at 58 (c :: s)) as [[before after]|]; done.
Qed.

Lemma for_lines_rules lines requirements :
  for_lines requirements lines =
    Some (foldl store_rule requirements (omap rule_of_line lines)).
Proof.
  revert requirements. induction lines as [|line lines IH]; intros requirements.
  { done. }
  simpl. rewrite add_requirement_rule. simpl. rewrite IH.
  by destruct (rule_of_line line).
Qed.

Lemma load_requirements_Some (requirements_file : option (list str)) :
  ∃ requirements, load_requirements requirements_file = Some requirements.
Proof.
  destruct requirements_file as [lines|]; simpl; [rewrite for_lines_rules|]; eauto.
Qed.

(** X1: the loader never fails on the unpacking of a line, whether the file
    exists or not, and the table it returns has pairwise distinct
    resources. *)
Theorem load_requirements_dict (requirements_file : option (list str)) :
  ∃ requirements,
    load_requirements requirements_file = Some requirements ∧
    NoDup requirements.*1.
Proof.
  destruct requirements_file as [lines|]; simpl.
  - rewrite for_lines_rules. eexists. split; [done|].
    rewrite store_rules_keys. simpl.
    apply NoDup_filter, first_occurrences_NoDup.
  - exists []. split; [done|constructor].
Qed.

(** X2: when a resource is stated by several lines, the last of them gives
    its package; a resource that no line states is not in the table. *)
Theorem load_requirements_last_wins (lines : list str) :
  ∃ requirements,
    load_requirements (Some lines) = Some requirements ∧
    ∀ resource,
      dict_get requirements resource =
        dict_get (reverse (omap rule_of_line lines)) resource.
Proof.
  simpl. rewrite for_lines_rules. eexists. split; [done|].
  intros resource. rewrite store_rules_get.
  by destruct (dict_get _ resource).
Qed.

(** X3: the table lists the resources in the order in which the file first
    states them. *)
Theorem load_requirements_order (lines : list str) :
  ∃ requirements,
    load_requirements (Some lines) = Some requirements ∧
    requirements.*1 = first_occurrences (omap rule_of_line lines).*1.
Proof.
  simpl. rewrite for_lines_rules. eexists. split; [done|].
  rewrite store_rules_keys. simpl.
  apply filter_Forall_id, Forall_forall. intros k _. apply not_elem_of_nil.
Qed.

(** X4: a line that, once stripped, holds no colon (a blank line among
    them) can be dropped from the file without changing the table. *)
Theorem load_requirements_skips (before after : list str) (line : str) :
  Str.contains (Str.strip line) ":" = false →
  load_requirements (Some (before ++ line :: after)) =
    load_requirements (Some (before ++ after)).
Proof.
  intros Hline. simpl. rewrite !for_lines_rules, !omap_app. simpl.
  assert (rule_of_line line = None) as ->; [|done].
  unfold rule_of_line. change (u ":") with [58%N] in Hline.
  rewrite contains_split_at in Hline.
  by destruct (split_at 58 (Str.strip line)).
Qed.

Lemma elem_of_store_rules rules requirements rule :
  rule ∈ foldl store_rule requirements rules → rule ∈ rules ∨ rule ∈ requirements.
Proof.
  revert requirements. induction rules as [|[k v] rules IH]; intros requirements.
  { by right. }
  simpl. intros [Hin|Hin]%IH; [left; by right|].
  apply elem_of_dict_set in Hin as [->|Hin]; [left; by left|by right].
Qed.

(** X5: the resources and the packages of the table carry no blank at
    either end, a blank being any character that Python takes for white
    space, and a resource holds no colon. *)
Theorem load_requirements_stripped
    (lines : list str) (requirements : list (str * str))
    (rule : str * str) :
  load_requirements (Some lines) = Some requirements →
  rule ∈ requirements →
  stripped rule.1 ∧ stripped rule.2 ∧ no_colon rule.1.
Proof.
  simpl. rewrite for_lines_rules. intros [= <-] Hin.
  apply elem_of_store_rules in Hin as [Hin|Hin]; [|by apply elem_of_nil in Hin].
  apply list_elem_of_omap in Hin as (line & _ & Hline).
  unfold rule_of_line in Hline.
  destruct (split_at 58 (Str.strip line)) as [[before after]|] eqn:Hsplit; [|done].
  injection Hline as <-. simpl. split; [apply strip_stripped|].
  split; [apply strip_stripped|].
  apply no_colon_strip. by apply split_at_before in Hsplit.
Qed.

Lemma rule_of_line_of_rule rule :
  stripped rule.1 → stripped rule.2 → no_colon rule.1 →
  rule_of_line (line_of_rule rule) = Some rule.
Proof.
  destruct rule as [k v]. simpl. intros Hk Hv Hcolon.
  unfold rule_of_line, line_of_rule. cbn [fst snd].
  change (u ":") with [58%N]. unfold nl.
  assert (Str.strip (k ++ [58%N] ++ v ++ [10%N]) = k ++ 58%N :: v) as ->.
  { unfold Str.strip.
    assert (Str.lstrip (k ++ [58%N] ++ v ++ [10%N]) = k ++ [58%N] ++ v ++ [10%N])
      as ->.
    { destruct k as [|c k]; [done|]. simpl. destruct Hk as [Hk _].
      by rewrite (Hk c). }
    assert (Str.rstrip (58%N :: v ++ [10%N]) = 58%N :: v) as Hright.
    { rewrite rstrip_cons_nonspace by done.
      rewrite rstrip_snoc_space by done. by rewrite stripped_rstrip. }
    change ([58%N] ++ v ++ [10%N]) with (58%N :: v ++ [10%N]).
    rewrite rstrip_app_nonempty; rewrite Hright; done. }
  rewrite split_at_app by done.
  by rewrite (stripped_strip k), (stripped_strip v).
Qed.

Lemma store_rules_fresh rules requirements :
  NoDup (requirements ++ rules).*1 →
  foldl store_rule requirements rules = requirements ++ rules.
Proof.
  revert requirements. induction rules as [|[k v] rules IH]; intros requirements.
  { by rewrite app_nil_r. }
  intros Hnd. simpl. unfold store_rule at 2. simpl.
  rewrite (cons_middle (k, v)), app_assoc in Hnd |- *.
  rewrite dict_set_new.
  - by apply IH.
  - rewrite !fmap_app in Hnd. apply NoDup_app in Hnd as [Hnd _].
    apply NoDup_app in Hnd as (_ & Hdisj & _).
    intros Hin. apply (Hdisj k Hin). simpl. by left.
Qed.

(** *** Reading the lines of a text *)

Lemma read_lines_line (line rest cur : str) :
  one_line line →
  read_lines cur false (line ++ 10%N :: rest) =
    (reverse cur ++ line ++ [10%N]) :: read_lines [] false rest.
Proof.
  intros [Hlf Hcr]. revert cur.
  induction line as [|c line IH]; intros cur.
  - simpl. by rewrite reverse_cons.
  - apply not_elem_of_cons in Hlf as [Hc1 Hlf].
    apply not_elem_of_cons in Hcr as [Hc2 Hcr].
    cbn [app read_lines].
    assert (N.eqb c 10 = false) as -> by (apply N.eqb_neq; congruence).
    assert (N.eqb c 13 = false) as -> by (apply N.eqb_neq; congruence).
    rewrite IH by done. by rewrite reverse_cons, <- app_assoc.
Qed.

Lemma one_line_line_of_rule rule :
  one_line rule.1 → one_line rule.2 →
  ∃ line, line_of_rule rule = line ++ [10%N] ∧ one_line line.
Proof.
  intros [H1 H2] [H3 H4]. exists (rule.1 ++ u ":" ++ rule.2).
  split; [unfold line_of_rule, nl; by rewrite <- !app_assoc|].
  change (u ":") with [58%N].
  split; rewrite !not_elem_of_app, list_elem_of_singleton; done.
Qed.

(** The lines of the file that states the rules of a table, one per line. *)
Lemma text_lines_of_rules (requirements : list (str * str)) :
  Forall (λ rule, one_line rule.1 ∧ one_line rule.2) requirements →
  text_lines (mjoin (line_of_rule <$> requirements)) = line_of_rule <$> requirements.
Proof.
  unfold text_lines. induction 1 as [|rule rules [H1 H2] _ IH]; [done|].
  rewrite fmap_cons.
  change (mjoin (line_of_rule rule :: (line_of_rule <$> rules)))
    with (line_of_rule rule ++ mjoin (line_of_rule <$> rules)).
  destruct (one_line_line_of_rule rule H1 H2) as (line & -> & Hline).
  rewrite <- app_assoc. cbn [app].
  rewrite read_lines_line by done. by rewrite IH.
Qed.

(** X6: writing each rule of a table on a line of a file,
    [resource:package], and loading the file gives the table back, provided
    that its resources are pairwise distinct and hold no colon, that neither
    the resources nor the packages begin or end with a blank, and that none
    of them holds an end of line. *)
Theorem load_requirements_round_trip (requirements : list (str * str)) :
  NoDup requirements.*1 →
  Forall (λ rule, stripped rule.1 ∧ stripped rule.2 ∧ no_colon rule.1 ∧
                  one_line rule.1 ∧ one_line rule.2) requirements →
  let text := mjoin (line_of_rule <$> requirements) in
  load_requirements (Some (text_lines text)) = Some requirements.
Proof.
  intros Hnd Hrules text. subst text.
  rewrite text_lines_of_rules
    by (eapply Forall_impl; [exact Hrules|]; by intros rule (_ & _ & _ & ? & ?)).
  simpl. rewrite for_lines_rules. f_equal.
  assert (omap rule_of_line (line_of_rule <$> requirements) = requirements) as ->.
  { clear Hnd. induction Hrules as [|rule rules (Hk & Hv & Hc & _) _ IH]; [done|].
    rewrite fmap_cons. csimpl. rewrite rule_of_line_of_rule by done.
    csimpl. by rewrite IH. }
  by rewrite store_rules_fresh.
Qed.

(** ** The record evaluator, continued *)

(** X7: for a record whose fields are read and whose resources can be
    searched, the evaluator returns no diagnostic and, in the order of the
    table, one entry per violated rule; each entry carries the server code,
    the owner name as written, the owner profile and the file name of the
    record. *)
Theorem process_json_file_table_order
    (requirements : list (str * str))
    (user_packages : gmap str (gset str)) (f : json_file)
    (server_resources owner_name owner_profile server_code : json)
    (owner_key : str) :
  read_record f =
    Ok (server_resources, owner_name, owner_profile, server_code, owner_key) →
  iterable server_resources = true →
  process_json_file requirements user_packages f =
    (entry f owner_name owner_profile server_code <$>
       filter (violated user_packages server_resources owner_key) requirements,
     None).
Proof.
  intros Hread Hit.
  by rewrite (process_json_file_read _ _ _ _ _ _ _ _ Hread), Hit.
Qed.

(** X8: the evaluator reports no diagnostic exactly when the fields of the
    record are read without fault and either its resources can be searched
    or the table has no rule; in particular a value of [resources] that
    cannot be searched goes unnoticed under an empty table. *)
Theorem process_json_file_no_diagnostic_iff
    (requirements : list (str * str))
    (user_packages : gmap str (gset str)) (f : json_file) :
  (process_json_file requirements user_packages f).2 = None ↔
  ∃ server_resources owner_name owner_profile server_code owner_key,
    read_record f =
      Ok (server_resources, owner_name, owner_profile, server_code, owner_key) ∧
    (iterable server_resources = true ∨ requirements = []).
Proof.
  destruct (read_record f) as [[[[[sr on] op] sc] ok]|e] eqn:Hread.
  - rewrite (process_json_file_read _ _ _ _ _ _ _ _ Hread). split.
    + intros Hnone. exists sr, on, op, sc, ok. split; [done|].
      destruct (iterable sr); [by left|]. case_decide; [by right|done].
    + intros (? & ? & ? & ? & ? & [= <- <- <- <- <-] & [->| ->]); [done|].
      by destruct (iterable sr).
  - rewrite (process_json_file_unread _ _ _ _ Hread). simpl. split; [done|].
    by intros (? & ? & ? & ? & ? & [=] & _).
Qed.

(** The fault of a record whose decoded value has another shape. *)
Lemma read_record_shape_fault f data v attribute :
  content f = Loads data → shape_fault data = Some (v, attribute) →
  read_record f = Raise (no_attribute v attribute).
Proof.
  unfold read_record, json_load. intros ->.
  destruct data as [| | | | | |items]; try by intros [= <- <-].
  simpl.
  destruct (default (JObj []) (dict_get items "Data")) as [| | | | | |d];
    try by intros [= <- <-].
  simpl.
  destruct (default (JStr "N/A") (dict_get d "ownerName")) as [| | | |s| |];
    by intros [= <- <-].
Qed.

Lemma shape_fault_readable data : shape_fault data = None ↔ readable data = true.
Proof.
  destruct data as [| | | | | |items]; try done. simpl.
  destruct (default (JObj []) (dict_get items "Data")) as [| | | | | |d]; try done.
  by destruct (default (JStr "N/A") (dict_get d "ownerName")).
Qed.

(** X9: the diagnostic of a record that cannot be read, in full.  It begins
    with [Error reading] when the file is not UTF-8 or not JSON, and with
    [Unexpected error with] for every other fault: a file that cannot be
    opened, an exception of another class raised while the file is decoded
    (the [ValueError] of a number with too many digits, a [RecursionError]),
    and a decoded value of another shape.  For the latter the cause names
    the type of the offending value and the attribute it lacks: [get] for a
    record or a [Data] that is not an object, [lower] for an [ownerName] that
    is not a string. *)
Theorem process_json_file_fault_kind
    (requirements : list (str * str))
    (user_packages : gmap str (gset str)) (f : json_file) :
  match content f with
  | DecodeFails msg | ParseFails msg =>
      process_json_file requirements user_packages f =
        ([], Some (u "Error reading " ++ name f ++ u ": " ++ msg))
  | OpenFails msg =>
      process_json_file requirements user_packages f =
        ([], Some (u "Unexpected error with " ++ name f ++ u ": " ++ msg))
  | LoadFails e =>
      process_json_file requirements user_packages f =
        ([], Some ((if reading_error e then u "Error reading "
                    else u "Unexpected error with ") ++
                   name f ++ u ": " ++ exn_str e))
  | Loads data =>
      match shape_fault data with
      | Some (v, attribute) =>
          process_json_file requirements user_packages f =
            ([], Some (u "Unexpected error with " ++ name f ++ u ": '" ++
                       type_name v ++ u "' object has no attribute '" ++
                       attribute ++ u "'"))
      | None => readable data = true
      end
  end.
Proof.
  destruct (content f) as [msg|msg|msg|e|data] eqn:Hcontent.
  1-4: unfold process_json_file, try_body, read_record, json_load;
       rewrite Hcontent; try done.
  - unfold except, reading_error. simpl. by destruct (exn_cls e).
  - destruct (shape_fault data) as [[v attribute]|] eqn:Hshape.
    + rewrite (process_json_file_unread _ _ _ _
                 (read_record_shape_fault f data v attribute Hcontent Hshape)).
      unfold except, no_attribute. cbn [exn_cls exn_str]. reflexivity.
    + by apply shape_fault_readable.
Qed.

Lemma filter_sublist_impl {A} (P Q : A → Prop)
    `{∀ x, Decision (P x)} `{∀ x, Decision (Q x)} (l : list A) :
  (∀ x, P x → Q x) → filter P l `sublist_of` filter Q l.
Proof.
  intros HPQ. induction l as [|x l IH]; [done|].
  rewrite !filter_cons. destruct (decide (P x)) as [HP|HP].
  - rewrite decide_True by auto. by apply sublist_skip.
  - destruct (decide (Q x)); [by apply sublist_cons|done].
Qed.

(** X10: granting packages never adds a violation.  If every owner holds
    under the second index at least what it holds under the first, the
    entries of a record under the second index are a sub-list of its entries
    under the first, and the diagnostic is the same. *)
Theorem process_json_file_monotone
    (requirements : list (str * str))
    (user_packages user_packages' : gmap str (gset str)) (f : json_file) :
  (∀ key, default ∅ (user_packages !! key) ⊆ default ∅ (user_packages' !! key)) →
  (process_json_file requirements user_packages' f).1
    `sublist_of` (process_json_file requirements user_packages f).1 ∧
  (process_json_file requirements user_packages' f).2
    = (process_json_file requirements user_packages f).2.
Proof.
  intros Hmore.
  destruct (read_record f) as [[[[[sr on] op] sc] ok]|e] eqn:Hread.
  - rewrite !(process_json_file_read _ _ _ _ _ _ _ _ Hread).
    destruct (iterable sr); [|done]. simpl. split; [|done].
    apply fmap_sublist, filter_sublist_impl.
    intros rule [Hin Hnot]. split; [done|]. intros Hown. apply Hnot.
    by apply (Hmore ok).
  - by rewrite !(process_json_file_unread _ _ _ _ Hread).
Qed.

Lemma contains_app (s sub : str) :
  Str.contains s sub = true ↔ ∃ pre post, s = pre ++ sub ++ post.
Proof.
  induction s as [|c s IH].
  - cbn [Str.contains]. rewrite orb_false_r, bool_decide_eq_true. split.
    + intros [post Hpost]. by exists [], post.
    + intros (pre & post & Hs). destruct pre; [by exists post|discriminate].
  - cbn [Str.contains]. rewrite orb_true_iff, IH, bool_decide_eq_true. split.
    + intros [[post Hpost]|(pre & post & Hs)].
      * by exists [], post.
      * exists (c :: pre), post. by rewrite Hs.
    + intros (pre & post & Hs). destruct pre as [|d pre].
      * left. by exists post.
      * right. exists pre, post. by injection Hs.
Qed.

(** X11: what [resource in server_resources] tests.  In a list, that an
    element is the string [resource] (elements of other types never match);
    in a string, that [resource] occurs in it, as a substring; in an object,
    that [resource] is one of its keys. *)
Theorem py_in_meaning (resource : str) :
  (∀ elements,
     py_in resource (JList elements) = Ok true ↔ JStr resource ∈ elements) ∧
  (∀ s,
     py_in resource (JStr s) = Ok true ↔
     ∃ pre post, s = pre ++ resource ++ post) ∧
  (∀ items,
     py_in resource (JObj items) = Ok true ↔ resource ∈ items.*1).
Proof.
  split; [|split].
  - intros elements. apply py_in_list.
  - intros s. simpl. rewrite <- contains_app. split; [by intros [=]|by intros ->].
  - intros items. simpl. split.
    + intros [= H]. apply existsb_exists in H as ([k v] & Hin & Heq).
      apply bool_decide_eq_true in Heq as <-.
      apply list_elem_of_In in Hin. by apply (list_elem_of_fmap_2 fst) in Hin.
    + intros ([k v] & -> & Hin)%list_elem_of_fmap. f_equal.
      apply existsb_exists. exists (k, v). split; [by apply list_elem_of_In|].
      by apply bool_decide_eq_true.
Qed.

(** ** The scan coordinator, continued *)

Lemma read_record_owner f sr on op sc ok :
  read_record f = Ok (sr, on, op, sc, ok) →
  ∃ s, on = JStr s ∧ ok = lower s.
Proof.
  unfold read_record. destruct (json_load f) as [data|e]; [|done]. simpl.
  destruct (py_get data "Data" (JObj [])) as [d|e]; [|done]. simpl.
  destruct (py_get d "resources" (JList [])) as [sr'|e]; [|done]. simpl.
  destruct (py_get d "ownerName" (JStr "N/A")) as [on'|e]; [|done]. simpl.
  destruct (py_get d "ownerProfile" (JStr "N/A")) as [op'|e]; [|done]. simpl.
  destruct (py_get data "EndPoint" (JStr "N/A")) as [sc'|e]; [|done]. simpl.
  destruct on' as [| | | |s| |]; try done. simpl. intros [= <- <- <- <- <-]. eauto.
Qed.

(** What an entry of a record says. *)
Lemma process_json_file_sound requirements user_packages f v :
  v ∈ (process_json_file requirements user_packages f).1 →
  ∃ server_resources owner owner_profile server_code rule,
    read_record f =
      Ok (server_resources, JStr owner, owner_profile, server_code, lower owner) ∧
    rule ∈ requirements ∧
    v = entry f (JStr owner) owner_profile server_code rule ∧
    py_in rule.1 server_resources = Ok true ∧
    rule.2 ∉ default ∅ (user_packages !! lower owner).
Proof.
  destruct (read_record f) as [[[[[sr on] op] sc] ok]|e] eqn:Hread.
  - rewrite (process_json_file_read _ _ _ _ _ _ _ _ Hread).
    destruct (iterable sr); [|case_decide; simpl; by intros ?%elem_of_nil].
    simpl. intros (rule & -> & [[Hused Hnot] Hin]%list_elem_of_filter)%list_elem_of_fmap.
    destruct (read_record_owner _ _ _ _ _ _ Hread) as (s & -> & ->).
    by exists sr, s, op, sc, rule.
  - rewrite (process_json_file_unread _ _ _ _ Hread). simpl. by intros ?%elem_of_nil.
Qed.

(** X12: the scan never reports anything else than a violation.  Every
    entry it returns is the entry of one of the enumerated files and of a
    rule of the table: the fields of the file are read without fault, its
    owner name is a string, the resource of the rule is found in its
    resources and the owner, looked up under its name in lower case, does
    not hold the required package. *)
Theorem scan_sound
    (requirements : list (str * str))
    (user_packages : gmap str (gset str))
    (json_files completed : list json_file) (v : ViolationEntry) :
  as_completed json_files completed →
  v ∈ violations
        (scan_servers_parallel requirements user_packages json_files completed) →
  ∃ f server_resources owner owner_profile server_code rule,
    f ∈ json_files ∧
    read_record f =
      Ok (server_resources, JStr owner, owner_profile, server_code, lower owner) ∧
    rule ∈ requirements ∧
    v = entry f (JStr owner) owner_profile server_code rule ∧
    py_in rule.1 server_resources = Ok true ∧
    rule.2 ∉ default ∅ (user_packages !! lower owner).
Proof.
  intros Hperm.
  destruct (scan_servers_parallel_run requirements user_packages json_files
              completed Hperm) as (-> & _).
  intros (f & Hf & Hv)%elem_of_outcomes.
  destruct (process_json_file_sound _ _ _ _ Hv)
    as (sr & owner & op & sc & rule & Hread & Hrule & Hentry & Hused & Hnot).
  exists f, sr, owner, op, sc, rule. split; [|done].
  unfold as_completed in Hperm. by rewrite Hperm.
Qed.

Lemma length_process_json_file requirements user_packages f :
  length (process_json_file requirements user_packages f).1 ≤ length requirements.
Proof.
  destruct (read_record f) as [[[[[sr on] op] sc] ok]|e] eqn:Hread.
  - rewrite (process_json_file_read _ _ _ _ _ _ _ _ Hread).
    destruct (iterable sr); [|case_decide; simpl; lia].
    simpl. rewrite length_fmap. apply length_filter.
  - rewrite (process_json_file_unread _ _ _ _ Hread). simpl. lia.
Qed.

(** X13: a scan finds at most one violation per record and rule: the
    number of found servers is at most the number of files times the number
    of rules. *)
Theorem scan_found_bound
    (requirements : list (str * str))
    (user_packages : gmap str (gset str))
    (json_files completed : list json_file) :
  as_completed json_files completed →
  foundCount (scan_servers_parallel requirements user_packages json_files completed)
    ≤ length json_files * length requirements.
Proof.
  intros Hperm.
  destruct (scan_servers_parallel_run requirements user_packages json_files
              completed Hperm) as (Hv & _ & -> & _).
  rewrite Hv. unfold as_completed in Hperm. rewrite Hperm. clear.
  induction completed as [|f l IH]; [done|].
  change (mjoin (outcomes requirements user_packages (f :: l)).*1)
    with ((process_json_file requirements user_packages f).1 ++
          mjoin (outcomes requirements user_packages l).*1).
  rewrite length_app. simpl.
  pose proof (length_process_json_file requirements user_packages f). lia.
Qed.

(** X14: whatever the order of completion, the scan hands every enumerated
    record to a worker exactly once, in the order of the enumeration. *)
Theorem scan_submits_each_once
    (requirements : list (str * str))
    (user_packages : gmap str (gset str))
    (json_files completed : list json_file) :
  submitted (scan_servers_parallel requirements user_packages json_files completed).2
    = json_files.
Proof.
  unfold scan_servers_parallel. destruct json_files as [|f json_files]; [done|].
  cbn [length Nat.eqb snd]. set (st0 := ScanState _ _ _ _).
  destruct (foldl_collect (S (length json_files))
              (process_json_file requirements user_packages <$> completed) st0)
    as (_ & _ & _ & _ & Hs).
  unfold submitted in *. rewrite omap_app, Hs. simpl. rewrite app_nil_r.
  f_equal. clear. induction json_files; simpl; by f_equal.
Qed.

(** The progress printed by the collection loop. *)
Lemma foldl_collect_progress total_files rs st :
  progress_lines (trace (foldl (collect total_files) st rs)) =
    progress_lines (trace st) ++
    imap (λ i _, (processed_files st + S i, total_files,
                  found_servers st + length (mjoin (take (S i) rs).*1))) rs.
Proof.
  revert st. induction rs as [|[result error] rs IH]; intros st.
  { simpl. by rewrite app_nil_r. }
  change (foldl (collect total_files) st ((result, error) :: rs))
    with (foldl (collect total_files) (collect total_files st (result, error)) rs).
  rewrite IH, imap_cons. clear IH.
  assert (progress_lines (trace (collect total_files st (result, error)))
          = progress_lines (trace st) ++
            [(S (processed_files st), total_files,
              found_servers st + length result)]) as Hlines.
  { unfold progress_lines.
    destruct result as [|v result], error as [msg|]; simpl;
      try destruct (truthy msg); simpl; rewrite ?omap_app; simpl;
      rewrite ?app_nil_r, ?Nat.add_0_r; done. }
  assert (processed_files (collect total_files st (result, error))
          = S (processed_files st)) as Hprocessed by (by destruct result).
  assert (found_servers (collect total_files st (result, error))
          = found_servers st + length result) as Hfound.
  { destruct result; simpl; lia. }
  rewrite Hlines, Hprocessed, Hfound, <- app_assoc. f_equal.
  change ([(S (processed_files st), total_files, found_servers st + length result)] ++
          ?l) with
    ((S (processed_files st), total_files, found_servers st + length result) :: l).
  f_equal.
  - change (mjoin (take 1 ((result, error) :: rs)).*1) with (result ++ []).
    rewrite app_nil_r. f_equal. f_equal. lia.
  - apply imap_ext. intros i r _. unfold compose. cbv beta.
    change (mjoin (take (S (S i)) ((result, error) :: rs)).*1)
      with (result ++ mjoin (take (S i) rs).*1).
    rewrite length_app. f_equal; [f_equal; lia|lia].
Qed.

(** X15: the progress lines of a scan.  The line printed when the [i]-th
    result arrives shows [i] processed files out of the total and the number
    of violations of the records completed so far; there is one line per
    record. *)
Theorem scan_progress
    (requirements : list (str * str))
    (user_packages : gmap str (gset str))
    (json_files completed : list json_file) :
  as_completed json_files completed →
  progress_lines
    (scan_servers_parallel requirements user_packages json_files completed).2
  = imap (λ i _,
            (S i, length json_files,
             length (mjoin (outcomes requirements user_packages
                              (take (S i) completed)).*1)))
      completed.
Proof.
  intros Hperm. unfold as_completed in Hperm.
  unfold scan_servers_parallel. destruct json_files as [|f json_files].
  { apply Permutation_nil in Hperm as ->. done. }
  cbn [length Nat.eqb snd]. set (st0 := ScanState _ _ _ _).
  set (rs := process_json_file requirements user_packages <$> completed).
  pose proof (foldl_collect_progress (S (length json_files)) rs st0) as Hfold.
  assert (progress_lines (trace st0) = []) as Hst0.
  { unfold progress_lines. simpl. clear. induction json_files; simpl; done. }
  rewrite Hst0 in Hfold. simpl in Hfold.
  unfold progress_lines in *. rewrite omap_app, Hfold. simpl. rewrite app_nil_r.
  subst rs. rewrite imap_fmap. apply imap_ext. intros i g _.
  unfold outcomes, compose. by rewrite <- fmap_take.
Qed.

(** X16: the order in which the directory lists the files does not matter:
    two scans of the same files, enumerated and completed in any orders,
    return the same violations and report the same diagnostics, up to their
    order, with the same counters. *)
Theorem scan_enumeration_order
    (requirements : list (str * str))
    (user_packages : gmap str (gset str))
    (json_files json_files' completed completed' : list json_file) :
  json_files ≡ₚ json_files' →
  as_completed json_files completed →
  as_completed json_files' completed' →
  let run := scan_servers_parallel requirements user_packages json_files completed in
  let run' :=
    scan_servers_parallel requirements user_packages json_files' completed' in
  violations run ≡ₚ violations run' ∧
  diagnostics run.2 ≡ₚ diagnostics run'.2 ∧
  processedCount run = processedCount run' ∧
  foundCount run = foundCount run'.
Proof.
  intros Hfiles Hperm Hperm' run run'.
  destruct (scan_servers_parallel_run requirements user_packages json_files
              completed Hperm) as (Hv & Hp & Hf & Hd & _).
  destruct (scan_servers_parallel_run requirements user_packages json_files'
              completed' Hperm') as (Hv' & Hp' & Hf' & Hd' & _).
  fold run in Hv, Hp, Hf, Hd. fold run' in Hv', Hp', Hf', Hd'.
  unfold as_completed in *.
  assert (completed ≡ₚ completed') as Hall by (by rewrite <- Hperm, Hfiles).
  assert (violations run ≡ₚ violations run') as Hsame.
  { rewrite Hv, Hv'. unfold outcomes. by rewrite Hall. }
  split; [done|]. split; [|split].
  - rewrite Hd, Hd'. unfold outcomes. by rewrite Hall.
  - rewrite Hp, Hp'. by rewrite Hfiles.
  - rewrite Hf, Hf'. by rewrite Hsame.
Qed.

(** X17: scanning two sets of files in one run, the first set completing
    before the second, amounts to scanning them one after the other: the
    violations and the diagnostics are those of the two scans, in that
    order, and the counters add up. *)
Theorem scan_app
    (requirements : list (str * str))
    (user_packages : gmap str (gset str))
    (json_files1 json_files2 completed1 completed2 : list json_file) :
  as_completed json_files1 completed1 →
  as_completed json_files2 completed2 →
  let run1 := scan_servers_parallel requirements user_packages json_files1 completed1 in
  let run2 := scan_servers_parallel requirements user_packages json_files2 completed2 in
  let run :=
    scan_servers_parallel requirements user_packages
      (json_files1 ++ json_files2) (completed1 ++ completed2) in
  violations run = violations run1 ++ violations run2 ∧
  diagnostics run.2 = diagnostics run1.2 ++ diagnostics run2.2 ∧
  processedCount run = processedCount run1 + processedCount run2 ∧
  foundCount run = foundCount run1 + foundCount run2.
Proof.
  intros Hperm1 Hperm2 run1 run2 run.
  assert (as_completed (json_files1 ++ json_files2) (completed1 ++ completed2))
    as Hperm.
  { unfold as_completed in *. by rewrite Hperm1, Hperm2. }
  destruct (scan_servers_parallel_run requirements user_packages json_files1
              completed1 Hperm1) as (Hv1 & Hp1 & Hf1 & Hd1 & _).
  destruct (scan_servers_parallel_run requirements user_packages json_files2
              completed2 Hperm2) as (Hv2 & Hp2 & Hf2 & Hd2 & _).
  destruct (scan_servers_parallel_run requirements user_packages _ _ Hperm)
    as (Hv & Hp & Hf & Hd & _).
  fold run1 in Hv1, Hp1, Hf1, Hd1. fold run2 in Hv2, Hp2, Hf2, Hd2.
  fold run in Hv, Hp, Hf, Hd.
  assert (violations run = violations run1 ++ violations run2) as Hsame.
  { rewrite Hv, Hv1, Hv2. unfold outcomes. by rewrite !fmap_app, join_app. }
  split; [done|]. split; [|split].
  - rewrite Hd, Hd1, Hd2. unfold outcomes. by rewrite fmap_app, omap_app.
  - rewrite Hp, Hp1, Hp2. apply length_app.
  - rewrite Hf, Hf1, Hf2, Hsame. apply length_app.
Qed.

(** ** The customer index, continued *)

(** A row with a missing cell stops the loader. *)
Lemma add_row_short user_packages r :
  ¬ well_formed r →
  add_row user_packages r = Raise (no_attribute JNull "strip").
Proof.
  intros Hr. unfold add_row.
  destruct (row_get r "Username" []) as [username|] eqn:Hu; [|done].
  destruct (row_get r "Packages" []) as [p|] eqn:Hp; [|done].
  destruct Hr. split; [by rewrite Hu|by rewrite Hp].
Qed.

Lemma for_rows_short rows user_packages :
  ¬ Forall well_formed rows →
  for_rows user_packages rows = Raise (no_attribute JNull "strip").
Proof.
  revert user_packages. induction rows as [|r rows IH]; intros user_packages Hrows.
  { destruct Hrows. constructor. }
  simpl. destruct (decide (well_formed r)) as [Hr|Hr].
  - rewrite (add_row_well_formed _ _ Hr). simpl. apply IH.
    intros Hrest. apply Hrows. by constructor.
  - by rewrite (add_row_short _ _ Hr).
Qed.

(** X18: a row that lacks the cell of the [Username] or of the [Packages]
    column (a line shorter than the header) makes the loader raise the
    [AttributeError] of [None.strip()]: no index is built, whatever the other
    rows. *)
Theorem load_customer_packages_short_row
    (rows : list row) (other_files : list (list row)) :
  ¬ Forall well_formed rows →
  load_customer_packages (rows :: other_files) =
    Raise (Exn AttributeError "'NoneType' object has no attribute 'strip'").
Proof. intros Hrows. simpl. by rewrite for_rows_short. Qed.

Lemma union_list_Permutation (l1 l2 : list (gset str)) :
  l1 ≡ₚ l2 → ⋃ l1 = ⋃ l2.
Proof.
  intros Hperm. apply set_eq. intros x. rewrite !elem_of_union_list.
  by setoid_rewrite Hperm.
Qed.

(** X19: the order of the rows of the customer file does not matter: two
    files with the same readable rows, in any order, give the same index. *)
Theorem load_customer_packages_row_order
    (rows rows' : list row) (other_files other_files' : list (list row)) :
  rows ≡ₚ rows' →
  Forall well_formed rows →
  load_customer_packages (rows :: other_files) =
    load_customer_packages (rows' :: other_files').
Proof.
  intros Hperm Hrows. simpl.
  assert (Forall well_formed rows') as Hrows' by (by rewrite <- Hperm).
  destruct (for_rows_index rows ∅ Hrows) as (m & -> & Hm).
  destruct (for_rows_index rows' ∅ Hrows') as (m' & -> & Hm').
  f_equal. apply map_eq. intros key. rewrite Hm, Hm'.
  assert (filter (λ r, row_key r = Some key) rows
          ≡ₚ filter (λ r, row_key r = Some key) rows') as Hfilter
    by (by rewrite Hperm).
  destruct (filter _ rows) as [|r rs] eqn:Hrs.
  - apply Permutation_nil in Hfilter. by rewrite Hfilter.
  - destruct (filter _ rows') as [|r' rs'] eqn:Hrs'.
    + by apply Permutation_nil_r in Hfilter.
    + f_equal. f_equal. apply union_list_Permutation. by rewrite Hfilter.
Qed.

(** X20: loading the rows of two sources as one file gives the two indexes
    put together: a customer keeps the packages of either source and holds
    the union of them when it is in both. *)
Theorem load_customer_packages_app (rows1 rows2 : list row) :
  Forall well_formed rows1 →
  Forall well_formed rows2 →
  ∃ m1 m2,
    load_customer_packages [rows1] = Ok m1 ∧
    load_customer_packages [rows2] = Ok m2 ∧
    load_customer_packages [rows1 ++ rows2] = Ok (merge_index m1 m2).
Proof.
  intros Hrows1 Hrows2. simpl.
  assert (Forall well_formed (rows1 ++ rows2)) as Hrows
    by (by apply Forall_app).
  destruct (for_rows_index rows1 ∅ Hrows1) as (m1 & -> & Hm1).
  destruct (for_rows_index rows2 ∅ Hrows2) as (m2 & -> & Hm2).
  destruct (for_rows_index _ ∅ Hrows) as (m & -> & Hm).
  exists m1, m2. split; [done|]. split; [done|]. f_equal.
  apply map_eq. intros key. unfold merge_index.
  rewrite lookup_union_with, Hm, Hm1, Hm2, filter_app, !lookup_empty. simpl.
  destruct (filter _ rows1) as [|r1 rs1], (filter _ rows2) as [|r2 rs2]; simpl.
  - done.
  - by rewrite !(left_id_L ∅ (∪)).
  - by rewrite app_nil_r, !(left_id_L ∅ (∪)).
  - rewrite !(left_id_L ∅ (∪)), fmap_app, union_list_app_L. simpl.
    f_equal. by rewrite (assoc_L (∪)).
Qed.

(** *** Keys and package names *)

Lemma clean_chars s :
  Forall (λ c, negb (is_wrapper c) && negb (N.eqb c 59) = true) (clean s).
Proof.
  induction s as [|c s IH]; [constructor|]. simpl.
  destruct (is_wrapper c) eqn:Hw; [done|]. constructor; [|done].
  destruct (N.eqb c 59) eqn:Hsemi; [done|]. by rewrite Hw, Hsemi.
Qed.

Lemma split_each_chars cur s :
  Forall (λ c, package_char c = true) cur →
  Forall (λ c, negb (is_wrapper c) && negb (N.eqb c 59) = true) s →
  Forall (Forall (λ c, package_char c = true)) (split_each cur s).
Proof.
  intros Hcur Hs. revert cur Hcur.
  induction Hs as [|c s Hc _ IH]; intros cur Hcur; simpl.
  - constructor; [|done]. by apply Forall_reverse.
  - destruct (Str.is_sep c) eqn:Hsep.
    + constructor; [by apply Forall_reverse|]. apply IH. constructor.
    + apply IH. constructor; [|done]. unfold package_char.
      by rewrite Hc, Hsep.
Qed.

(** The package names read in a field. *)
Lemma packages_chars field p :
  p ∈ packages field → p ≠ [] ∧ Forall (λ c, package_char c = true) p.
Proof.
  unfold packages, pieces.
  rewrite elem_of_list_to_set, list_elem_of_filter. intros [Hp Hin].
  split; [done|].
  pose proof (split_each_chars [] (clean field) (Forall_nil_2 _) (clean_chars field))
    as Hall.
  rewrite Forall_forall in Hall. by apply Hall.
Qed.

Lemma load_customer_packages_Ok rows other_files user_packages :
  load_customer_packages (rows :: other_files) = Ok user_packages →
  ∀ key, user_packages !! key = index rows key.
Proof.
  intros Hload. destruct (decide (Forall well_formed rows)) as [Hrows|Hrows].
  - simpl in Hload. destruct (for_rows_index rows ∅ Hrows) as (m & Hm & Hkeys).
    rewrite Hm in Hload. injection Hload as <-. intros key.
    rewrite Hkeys, lookup_empty. unfold index.
    destruct (filter _ rows); [done|]. simpl. f_equal. apply (left_id_L ∅ (∪)).
  - simpl in Hload. by rewrite for_rows_short in Hload.
Qed.

(** X21: the shape of an index.  Every key is the lower-casing of a
    non-empty user name without blank at either end, a blank being any
    character that Python takes for white space, and every package name
    under it is non-empty and holds no bracket, double quote, semicolon,
    comma or blank. *)
Theorem load_customer_packages_normal
    (rows : list row) (other_files : list (list row))
    (user_packages : gmap str (gset str))
    (key : str) (owned_packages : gset str) :
  load_customer_packages (rows :: other_files) = Ok user_packages →
  user_packages !! key = Some owned_packages →
  (∃ username, key = lower username ∧ username ≠ [] ∧ stripped username) ∧
  ∀ p, p ∈ owned_packages → p ≠ [] ∧ Forall (λ c, package_char c = true) p.
Proof.
  intros Hload Hkey. rewrite (load_customer_packages_Ok _ _ _ Hload) in Hkey.
  unfold index in Hkey.
  destruct (filter (λ r, row_key r = Some key) rows) as [|r rs] eqn:Hrs;
    [done|].
  injection Hkey as <-.
  assert (r ∈ filter (λ r, row_key r = Some key) rows) as Hr
    by (rewrite Hrs; left).
  apply list_elem_of_filter in Hr as [Hr _]. unfold row_key in Hr.
  destruct (row_get r "Username" []) as [username|]; [|done].
  destruct (truthy (Str.strip username)) eqn:Hu; [|done]. injection Hr as <-.
  split.
  - exists (Str.strip username). split; [done|]. split; [|apply strip_stripped].
    by destruct (Str.strip username).
  - intros p Hp. change (p ∈ ⋃ (row_packages <$> r :: rs)) in Hp.
    apply elem_of_union_list in Hp as (S & HS & Hp).
    apply list_elem_of_fmap in HS as (r' & -> & _).
    unfold row_packages in Hp.
    destruct (row_get r' "Packages" []) as [field|].
    + by apply (packages_chars field).
    + by apply not_elem_of_empty in Hp.
Qed.

(** ** The report and the main program *)

(** The writes of a report whose texts can all be encoded. *)
Lemma write_all_encodable texts :
  Forall (λ text, encodable text = true) texts → write_all texts = (texts, None).
Proof.
  induction 1 as [|text texts Htext _ IH]; [done|].
  simpl. by rewrite Htext, IH.
Qed.

(** The writes of a report one of whose texts cannot be encoded: they stop
    before the first such text. *)
Lemma write_all_fails texts :
  ¬ Forall (λ text, encodable text = true) texts →
  ∃ before text after,
    texts = before ++ text :: after ∧
    Forall (λ text, encodable text = true) before ∧
    encodable text = false ∧
    write_all texts = (before, Some text).
Proof.
  induction texts as [|text texts IH]; intros Hnot.
  { destruct Hnot. constructor. }
  simpl. destruct (encodable text) eqn:Htext.
  - destruct IH as (before & bad & after & -> & Hbefore & Hbad & ->).
    { intros Hrest. apply Hnot. by constructor. }
    exists (text :: before), bad, after. split; [done|].
    split; [by constructor|done].
  - exists [], text, texts. split; [done|]. split; [constructor|done].
Qed.

(** The observations of a run pick their own events. *)
Lemma scanned_Scan tr : scanned (Scan <$> tr) = tr.
Proof. induction tr as [|ev tr IH]; [done|]. unfold scanned in *. csimpl. by rewrite IH. Qed.

Lemma scanned_Console lines : scanned (Console <$> lines) = [].
Proof. induction lines as [|l lines IH]; [done|]. unfold scanned in *. by csimpl. Qed.

Lemma written_Scan tr : written (Scan <$> tr) = [].
Proof. induction tr as [|ev tr IH]; [done|]. unfold written in *. by csimpl. Qed.

Lemma written_Console lines : written (Console <$> lines) = [].
Proof. induction lines as [|l lines IH]; [done|]. unfold written in *. by csimpl. Qed.

Lemma printed_Scan tr : printed (Scan <$> tr) = [].
Proof. induction tr as [|ev tr IH]; [done|]. unfold printed in *. by csimpl. Qed.

Lemma printed_Report lines : printed (Console ∘ Report <$> lines) = lines.
Proof.
  induction lines as [|l lines IH]; [done|]. unfold printed in *. csimpl.
  by rewrite IH.
Qed.

Lemma summary_Scan tr : summary (Scan <$> tr) = [].
Proof. induction tr as [|ev tr IH]; [done|]. unfold summary in *. by csimpl. Qed.

Lemma summary_Report lines : summary (Console ∘ Report <$> lines) = [].
Proof. induction lines as [|l lines IH]; [done|]. unfold summary in *. by csimpl. Qed.

(** X24: a customer file with a row that lacks a cell makes the main
    program end on the [AttributeError] of the loader, before any record is
    handed to a worker and before any report is written or printed. *)
Theorem main_short_row
    (requirements_file : option (list str))
    (rows : list row) (other_files : list (list row))
    (json_files completed : list json_file) (timestamp generated : str) :
  ¬ Forall well_formed rows →
  let run :=
    main requirements_file (rows :: other_files) json_files completed
      timestamp generated in
  run.2 = Some (Uncaught (Exn AttributeError
                            "'NoneType' object has no attribute 'strip'")) ∧
  scanned run.1 = [] ∧ written run.1 = [] ∧ printed run.1 = [].
Proof.
  intros Hrows run. subst run. unfold main.
  destruct (load_requirements_Some requirements_file) as (requirements & ->).
  change (load_customer_packages (rows :: other_files)) with (for_rows ∅ rows).
  rewrite for_rows_short by done. cbn [fst snd]. split; [done|].
  by destruct requirements_file.
Qed.

(** The run of the main program once the two tables are loaded: what it
    writes and how it ends are those of [save_results_to_file], and the
    console shows the report only if the file could be written. *)
Lemma main_loaded
    (requirements_file : option (list str))
    (csv_files : list (list row)) (json_files completed : list json_file)
    (timestamp generated : str)
    (requirements : list (str * str))
    (user_packages : gmap str (gset str)) :
  load_requirements requirements_file = Some requirements →
  load_customer_packages csv_files = Ok user_packages →
  let scan :=
    scan_servers_parallel requirements user_packages json_files completed in
  let run :=
    main requirements_file csv_files json_files completed timestamp generated in
  let saved :=
    write_all (report_texts generated (violations scan) requirements) in
  run.2 = EncodeError <$> saved.2 ∧
  scanned run.1 = scan.2 ∧
  written run.1 =
    [(u "outputs/5DB-Check-ID_" ++ timestamp ++ u ".txt", saved.1)] ∧
  printed run.1 =
    (if saved.2 is Some _ then [] else console_report (violations scan)) ∧
  summary run.1 = [(processedCount scan, foundCount scan)].
Proof.
  intros Hreq Hcust scan run saved. subst run. unfold main.
  rewrite Hreq, Hcust. fold scan. cbn [fst snd].
  unfold save_results_to_file. cbn [fst snd].
  unfold violations, processedCount, foundCount in *.
  set (found := scan.1.1.1) in *. fold saved.
  set (before :=
         (Console LoadingRequirements :: match requirements_file with
                                         | None => [Console RequirementsFileNotFound]
                                         | Some _ => []
                                         end) ++
         [Console (LoadedRequirements (length requirements));
          Console LoadingCustomers] ++
         match csv_files with [] => [Console NoCsvFiles] | _ :: _ => [] end).
  assert (scanned before = [] ∧ written before = [] ∧ printed before = [] ∧
          summary before = []) as (Hb1 & Hb2 & Hb3 & Hb4).
  { subst before. by destruct requirements_file, csv_files. }
  destruct saved.2 as [text|]; cbn [fst snd fmap option_fmap option_map].
  - split; [done|].
    unfold scanned, written, printed, summary in *.
    rewrite !omap_app, Hb1, Hb2, Hb3, Hb4.
    fold (scanned (Scan <$> scan.2)) (written (Scan <$> scan.2))
         (printed (Scan <$> scan.2)) (summary (Scan <$> scan.2)).
    rewrite scanned_Scan, written_Scan, printed_Scan, summary_Scan.
    cbn [omap list_omap app]. by rewrite !app_nil_r.
  - split; [done|].
    unfold scanned, written, printed, summary in *.
    rewrite !omap_app, Hb1, Hb2, Hb3, Hb4.
    fold (scanned (Scan <$> scan.2)) (written (Scan <$> scan.2))
         (printed (Scan <$> scan.2)) (summary (Scan <$> scan.2)).
    fold (scanned (Console ∘ Report <$> console_report found))
         (written (Console ∘ Report <$> console_report found))
         (printed (Console ∘ Report <$> console_report found))
         (summary (Console ∘ Report <$> console_report found)).
    rewrite scanned_Scan, written_Scan, printed_Scan, summary_Scan.
    rewrite printed_Report, summary_Report.
    rewrite (list_fmap_compose Report Console), scanned_Console, written_Console.
    cbn [omap list_omap app]. by rewrite !app_nil_r.
Qed.

(** X25: when the two tables are loaded and every text of the report can be
    encoded in UTF-8, the main program ends normally and its outputs agree:
    it writes the whole report under the name made of the first reading of
    the clock; the total that the file states and the number of violations
    of the summary line are the number of violations that the scan returns,
    the summary line showing the number of enumerated files as well; and the
    lines of the servers are the same in the file and on the console, in the
    same order. *)
Theorem main_reports_agree
    (requirements_file : option (list str))
    (csv_files : list (list row)) (json_files completed : list json_file)
    (timestamp generated : str)
    (requirements : list (str * str))
    (user_packages : gmap str (gset str)) :
  load_requirements requirements_file = Some requirements →
  load_customer_packages csv_files = Ok user_packages →
  as_completed json_files completed →
  let scan :=
    scan_servers_parallel requirements user_packages json_files completed in
  let run :=
    main requirements_file csv_files json_files completed timestamp generated in
  let texts := report_texts generated (violations scan) requirements in
  Forall (λ text, encodable text = true) texts →
  run.2 = None ∧
  scanned run.1 = scan.2 ∧
  written run.1 = [(u "outputs/5DB-Check-ID_" ++ timestamp ++ u ".txt", texts)] ∧
  texts !! 5 =
    Some (u "Total Unauthorized Servers Found: " ++
          decimal (length (violations scan)) ++ nl) ∧
  summary run.1 = [(length json_files, length (violations scan))] ∧
  if decide (violations scan = []) then
    drop 7 texts = [u "No unauthorized servers found!" ++ nl] ∧
    printed run.1 = [nl ++ u "No unauthorized servers found!"]
  else
    drop 7 texts = (λ line, line ++ nl) <$> (violations scan ≫= server_lines) ∧
    drop 3 (printed run.1) = violations scan ≫= server_lines.
Proof.
  intros Hreq Hcust Hperm scan run texts Htexts.
  destruct (main_loaded requirements_file csv_files json_files completed
              timestamp generated requirements user_packages Hreq Hcust)
    as (Hend & Hscan & Hwritten & Hprinted & Hsummary).
  fold scan run texts in Hend, Hscan, Hwritten, Hprinted, Hsummary.
  destruct (scan_servers_parallel_run requirements user_packages json_files
              completed Hperm) as (_ & Hp & Hf & _).
  fold scan in Hp, Hf.
  rewrite (write_all_encodable texts Htexts) in Hend, Hwritten, Hprinted.
  cbn [fst snd] in *. rewrite Hp, Hf in Hsummary.
  split; [done|]. split; [done|]. split; [done|]. split; [done|].
  split; [done|]. rewrite Hprinted. subst texts. unfold report_texts, console_report.
  destruct (violations scan) as [|server servers]; [done|].
  rewrite decide_False by done. done.
Qed.

(** X26: when the two tables are loaded and some text of the report cannot
    be encoded in UTF-8 (a field of a violation holds a surrogate), the main
    program ends on the [UnicodeEncodeError] of the first such text: the
    file holds the texts before it and no report is printed on the
    console. *)
Theorem main_encode_error
    (requirements_file : option (list str))
    (csv_files : list (list row)) (json_files completed : list json_file)
    (timestamp generated : str)
    (requirements : list (str * str))
    (user_packages : gmap str (gset str)) :
  load_requirements requirements_file = Some requirements →
  load_customer_packages csv_files = Ok user_packages →
  let scan :=
    scan_servers_parallel requirements user_packages json_files completed in
  let run :=
    main requirements_file csv_files json_files completed timestamp generated in
  let texts := report_texts generated (violations scan) requirements in
  ¬ Forall (λ text, encodable text = true) texts →
  ∃ before text after,
    texts = before ++ text :: after ∧
    Forall (λ text, encodable text = true) before ∧
    encodable text = false ∧
    run.2 = Some (EncodeError text) ∧
    written run.1 =
      [(u "outputs/5DB-Check-ID_" ++ timestamp ++ u ".txt", before)] ∧
    printed run.1 = [] ∧
    scanned run.1 = scan.2.
Proof.
  intros Hreq Hcust scan run texts Htexts.
  destruct (main_loaded requirements_file csv_files json_files completed
              timestamp generated requirements user_packages Hreq Hcust)
    as (Hend & Hscan & Hwritten & Hprinted & _).
  fold scan run texts in Hend, Hscan, Hwritten, Hprinted.
  destruct (write_all_fails texts Htexts)
    as (before & text & after & Heq & Hbefore & Htext & Hwrite).
  rewrite Hwrite in Hend, Hwritten, Hprinted. cbn [fst snd] in *.
  by exists before, text, after.
Qed.

End python.

(** * The properties on concrete inputs

    The case mapping is that of ASCII text, [Str.ascii_lower], and the
    decoded values shown in a report are strings, which [str()] leaves as
    they are. *)

(** ** The record evaluator *)

Lemma process_json_file_violation_iff_witness :
  let requirements : list (str * str) := [(u "gpu-cluster", u "pkg-gpu")] in
  let user_packages : gmap str (gset str) := {[u "alice" := {[u "pkg-gpu"]}]} in
  let f :=
    JsonFile "srv2.json"
      (Loads (JObj [(u "EndPoint", JStr "srv2");
                    (u "Data", JObj [(u "ownerName", JStr "Bob");
                                     (u "resources", JList [JStr "gpu-cluster"])])])) in
  let produced :=
    filter (for_rule (u "gpu-cluster", u "pkg-gpu"))
      (process_json_file Str.ascii_lower requirements user_packages f).1 in
  (length produced = 1 ↔
     py_in "gpu-cluster" (JList [JStr "gpu-cluster"]) = Ok true ∧
     u "pkg-gpu" ∉ default (∅ : gset str) (user_packages !! u "bob")) ∧
  (produced = [entry f (JStr "Bob") (JStr "N/A") (JStr "srv2")
                 (u "gpu-cluster", u "pkg-gpu")] ∨ produced = []).
Proof.
  intros requirements user_packages f.
  apply (process_json_file_violation_iff Str.ascii_lower requirements user_packages f
           (JList [JStr "gpu-cluster"]) (JStr "Bob") (JStr "N/A") (JStr "srv2")
           (u "bob") (u "gpu-cluster", u "pkg-gpu")).
  - refine (bool_decide_unpack _ _). vm_compute. exact I.
  - reflexivity.
  - refine (bool_decide_unpack _ _). vm_compute. exact I.
Defined.

Lemma process_json_file_no_Data_witness :
  dict_get [(u "EndPoint", JStr "srv1")] "Data" = None ∧
  process_json_file Str.ascii_lower [(u "gpu-cluster", u "pkg-gpu")] ∅
    (JsonFile "srv1.json" (Loads (JObj [(u "EndPoint", JStr "srv1")]))) = ([], None).
Proof.
  split; [reflexivity|].
  apply (process_json_file_no_Data Str.ascii_lower [(u "gpu-cluster", u "pkg-gpu")] ∅
           "srv1.json" [(u "EndPoint", JStr "srv1")]).
  reflexivity.
Defined.

(** C4, as stated, fails: the record [{"EndPoint": "srv1"}] has no [Data]
    key and the evaluator reports no diagnostic for it. *)
Lemma process_json_file_no_Data_no_diagnostic :
  dict_get [(u "EndPoint", JStr "srv1")] "Data" = None ∧
  ¬ ∃ diagnostic,
      (process_json_file Str.ascii_lower [(u "gpu-cluster", u "pkg-gpu")] ∅
         (JsonFile "srv1.json" (Loads (JObj [(u "EndPoint", JStr "srv1")])))).2
      = Some diagnostic.
Proof. split; [reflexivity|]. intros [diagnostic H]. vm_compute in H. discriminate. Qed.

(** ** The scan coordinator *)

(** C2, as stated, fails: one record that uses two gated resources, listed
    in the table as [gpu-cluster] then [fast-disk], is reported in that
    order, which is not ascending. *)
Lemma scan_violations_not_sorted :
  let requirements : list (str * str) :=
    [(u "gpu-cluster", u "pkg-gpu"); (u "fast-disk", u "pkg-disk")] in
  let f :=
    JsonFile "srv1.json"
      (Loads (JObj [(u "EndPoint", JStr "srv1");
                    (u "Data", JObj [(u "ownerName", JStr "carol");
                                     (u "resources",
                                      JList [JStr "fast-disk"; JStr "gpu-cluster"])])])) in
  as_completed [f] [f] ∧
  ¬ Sorted key_le
      (violations (scan_servers_parallel Str.ascii_lower requirements ∅ [f] [f])).
Proof.
  split; [reflexivity|]. intros Hsorted.
  vm_compute in Hsorted.
  apply Sorted_inv in Hsorted as [_ Hhd]. apply HdRel_inv in Hhd.
  vm_compute in Hhd. discriminate Hhd.
Qed.

Lemma scan_violations_in_completion_order_witness :
  let requirements : list (str * str) := [(u "gpu-cluster", u "pkg-gpu")] in
  let f1 :=
    JsonFile "srv1.json"
      (Loads (JObj [(u "Data", JObj [(u "resources", JList [JStr "gpu-cluster"])])])) in
  let f2 := JsonFile "srv2.json" (ParseFails "Expecting value") in
  let run := scan_servers_parallel Str.ascii_lower requirements ∅ [f1; f2] [f2; f1] in
  as_completed [f1; f2] [f2; f1] ∧
  violations run = mjoin (outcomes Str.ascii_lower requirements ∅ [f2; f1]).*1 ∧
  violations run ≡ₚ mjoin (outcomes Str.ascii_lower requirements ∅ [f1; f2]).*1.
Proof.
  intros requirements f1 f2 run.
  assert (as_completed [f1; f2] [f2; f1]) as Hperm by apply perm_swap.
  split; [exact Hperm|].
  exact (scan_violations_in_completion_order Str.ascii_lower requirements ∅
           [f1; f2] [f2; f1] Hperm).
Defined.

Lemma scan_prints_diagnostics_witness :
  let requirements : list (str * str) := [(u "gpu-cluster", u "pkg-gpu")] in
  let f1 :=
    JsonFile "srv1.json"
      (Loads (JObj [(u "Data", JObj [(u "resources", JList [JStr "gpu-cluster"])])])) in
  let f2 := JsonFile "srv2.json" (ParseFails "Expecting value") in
  let run := scan_servers_parallel Str.ascii_lower requirements ∅ [f1; f2] [f2; f1] in
  let per_record := outcomes Str.ascii_lower requirements ∅ [f2; f1] in
  as_completed [f1; f2] [f2; f1] ∧
  diagnostics run.2 = omap snd per_record ∧
  run.1 = (mjoin per_record.*1, 2, length (mjoin per_record.*1)).
Proof.
  intros requirements f1 f2 run per_record.
  assert (as_completed [f1; f2] [f2; f1]) as Hperm by apply perm_swap.
  split; [exact Hperm|].
  exact (scan_prints_diagnostics Str.ascii_lower requirements ∅ [f1; f2] [f2; f1] Hperm).
Defined.

(** C5, as stated, fails: the scan of a record that cannot be parsed and
    the scan of a record without violation return the same value, although
    only the first one reports a diagnostic. *)
Lemma scan_returns_no_diagnostic :
  let requirements : list (str * str) := [(u "gpu-cluster", u "pkg-gpu")] in
  let bad := JsonFile "srv1.json" (ParseFails "Expecting value") in
  let good := JsonFile "srv1.json" (Loads (JObj [(u "EndPoint", JStr "srv1")])) in
  as_completed [bad] [bad] ∧ as_completed [good] [good] ∧
  omap snd (outcomes Str.ascii_lower requirements ∅ [bad])
    = [u "Error reading srv1.json: Expecting value"] ∧
  omap snd (outcomes Str.ascii_lower requirements ∅ [good]) = [] ∧
  (scan_servers_parallel Str.ascii_lower requirements ∅ [bad] [bad]).1
    = (scan_servers_parallel Str.ascii_lower requirements ∅ [good] [good]).1.
Proof. repeat split; reflexivity. Qed.

Lemma scan_counters_witness :
  let requirements : list (str * str) := [(u "gpu-cluster", u "pkg-gpu")] in
  let user_packages : gmap str (gset str) :=
    <[u "alice" := {[u "pkg-gpu"]}]> {[u "bob" := ∅]} in
  let record (server owner : str) :=
    Loads (JObj [(u "EndPoint", JStr server);
                 (u "Data", JObj [(u "ownerName", JStr owner);
                                  (u "resources", JList [JStr "gpu-cluster"])])]) in
  let f1 := JsonFile "srv1.json" (record "srv1" "alice") in
  let f2 := JsonFile "srv2.json" (record "srv2" "bob") in
  let f3 := JsonFile "srv3.json" (record "srv3" "carol") in
  let run :=
    scan_servers_parallel Str.ascii_lower requirements user_packages
      [f1; f2; f3] [f3; f1; f2] in
  as_completed [f1; f2; f3] [f3; f1; f2] ∧
  processedCount run = 3 ∧ foundCount run = length (violations run).
Proof.
  intros requirements user_packages record f1 f2 f3 run.
  assert (as_completed [f1; f2; f3] [f3; f1; f2]) as Hperm.
  { unfold as_completed. symmetry. apply (Permutation_cons_append [f1; f2] f3). }
  split; [exact Hperm|].
  exact (scan_counters Str.ascii_lower requirements user_packages
           [f1; f2; f3] [f3; f1; f2] Hperm).
Defined.

Lemma scan_isolation_witness :
  let requirements : list (str * str) := [(u "gpu-cluster", u "pkg-gpu")] in
  let user_packages : gmap str (gset str) := {[u "alice" := {[u "pkg-gpu"]}]} in
  let record (server owner : str) :=
    Loads (JObj [(u "EndPoint", JStr server);
                 (u "Data", JObj [(u "ownerName", JStr owner);
                                  (u "resources", JList [JStr "gpu-cluster"])])]) in
  let f1 := JsonFile "srv1.json" (record "srv1" "alice") in
  let f2 := JsonFile "srv2.json" (record "srv2" "bob") in
  let bad :=
    JsonFile "srv3.json"
      (Loads (JObj [(u "EndPoint", JStr "srv3"); (u "Data", JList [])])) in
  let run :=
    scan_servers_parallel Str.ascii_lower requirements user_packages [f1; f2] [f2; f1] in
  let run' :=
    scan_servers_parallel Str.ascii_lower requirements user_packages
      [bad; f1; f2] [f1; f2; bad] in
  length (diagnostics run'.2) = S (length (diagnostics run.2)) ∧
  violations run' ≡ₚ violations run ∧
  ∀ f, f ∈ [f1; f2] →
    filter (λ v, file_name v = name f) (violations run')
      = (process_json_file Str.ascii_lower requirements user_packages f).1 ∧
    filter (λ v, file_name v = name f) (violations run)
      = (process_json_file Str.ascii_lower requirements user_packages f).1.
Proof.
  intros requirements user_packages record f1 f2 bad.
  apply (scan_isolation Str.ascii_lower requirements user_packages
           [f1; f2] [f2; f1] [f1; f2; bad] bad).
  - apply perm_swap.
  - apply (Permutation_cons_append [f1; f2] bad).
  - left. reflexivity.
  - refine (bool_decide_unpack _ _). vm_compute. exact I.
Defined.

(** C8, as stated, fails: a malformed record that the evaluator does not
    flag adds no diagnostic.  The record [{"EndPoint": "srv3"}], which lacks
    its [Data], is evaluated with the defaults of the source; and a record
    whose [resources] is the number 5 goes unnoticed when the table has no
    rule. *)
Lemma scan_isolation_no_diagnostic :
  let requirements : list (str * str) := [(u "gpu-cluster", u "pkg-gpu")] in
  let f1 :=
    JsonFile "srv1.json"
      (Loads (JObj [(u "EndPoint", JStr "srv1");
                    (u "Data", JObj [(u "ownerName", JStr "alice");
                                     (u "resources", JList [JStr "gpu-cluster"])])])) in
  let no_Data := JsonFile "srv3.json" (Loads (JObj [(u "EndPoint", JStr "srv3")])) in
  let number :=
    JsonFile "srv4.json"
      (Loads (JObj [(u "EndPoint", JStr "srv4");
                    (u "Data", JObj [(u "resources", JInt 5)])])) in
  let scan requirements json_files :=
    scan_servers_parallel Str.ascii_lower requirements ∅ json_files json_files in
  as_completed [f1] [f1] ∧
  as_completed [no_Data; f1] [no_Data; f1] ∧
  as_completed [number; f1] [number; f1] ∧
  length (diagnostics (scan requirements [no_Data; f1]).2)
    = length (diagnostics (scan requirements [f1]).2) ∧
  length (diagnostics (scan [] [number; f1]).2)
    = length (diagnostics (scan [] [f1]).2).
Proof. repeat split; reflexivity. Qed.

Lemma scan_idempotent_witness :
  let requirements : list (str * str) :=
    [(u "gpu-cluster", u "pkg-gpu"); (u "fast-disk", u "pkg-disk")] in
  let user_packages : gmap str (gset str) := {[u "alice" := {[u "pkg-gpu"]}]} in
  let record (server owner : str) :=
    Loads (JObj [(u "EndPoint", JStr server);
                 (u "Data", JObj [(u "ownerName", JStr owner);
                                  (u "resources",
                                   JList [JStr "fast-disk"; JStr "gpu-cluster"])])]) in
  let f1 := JsonFile "srv1.json" (record "srv1" "alice") in
  let f2 := JsonFile "srv2.json" (record "srv2" "bob") in
  let run1 :=
    scan_servers_parallel Str.ascii_lower requirements user_packages [f1; f2] [f1; f2] in
  let run2 :=
    scan_servers_parallel Str.ascii_lower requirements user_packages [f1; f2] [f2; f1] in
  violations run1 ≡ₚ violations run2 ∧
  sort_violations (violations run1) = sort_violations (violations run2).
Proof.
  intros requirements user_packages record f1 f2.
  apply (scan_idempotent Str.ascii_lower requirements user_packages
           [f1; f2] [f1; f2] [f2; f1]).
  - refine (bool_decide_unpack _ _). vm_compute. exact I.
  - refine (bool_decide_unpack _ _). vm_compute. exact I.
  - reflexivity.
  - apply perm_swap.
Defined.

(** The lists that the two runs of this example return differ: without the
    sort, the order of the report follows the completion order. *)
Example scan_order_follows_completion :
  let requirements : list (str * str) := [(u "gpu-cluster", u "pkg-gpu")] in
  let record (server : str) :=
    Loads (JObj [(u "EndPoint", JStr server);
                 (u "Data", JObj [(u "resources", JList [JStr "gpu-cluster"])])]) in
  let f1 := JsonFile "srv1.json" (record "srv1") in
  let f2 := JsonFile "srv2.json" (record "srv2") in
  file_name <$>
    violations (scan_servers_parallel Str.ascii_lower requirements ∅ [f1; f2] [f1; f2])
    = [u "srv1.json"; u "srv2.json"] ∧
  file_name <$>
    violations (scan_servers_parallel Str.ascii_lower requirements ∅ [f1; f2] [f2; f1])
    = [u "srv2.json"; u "srv1.json"].
Proof. split; reflexivity. Qed.

(** ** The customer index *)



(** The two rows of this example are filed under [alice], with the four
    packages they name; the blanks around a user name and between the
    packages may be any white space, here a no-break space (160) and an em
    space (8195). *)
Example load_customer_packages_two_rows :
  let rows : list row :=
    [ [(u "Username", Some (u "Alice")); (u "Packages", Some (u "[pkg-a, pkg-b]"))];
      [(u "Username", Some (160%N :: u "alice"));
       (u "Packages", Some (u "pkg-c" ++ 8195%N :: u "pkg-d"))] ] in
  index Str.ascii_lower rows (u "alice")
    = Some {[ u "pkg-a"; u "pkg-b"; u "pkg-c"; u "pkg-d" ]} ∧
  index Str.ascii_lower rows (u "Alice") = None ∧
  (m ← load_customer_packages Str.ascii_lower [rows]; mret (m !! u "alice"))
    = Ok (Some {[ u "pkg-a"; u "pkg-b"; u "pkg-c"; u "pkg-d" ]}).
Proof.
  split; [|split].
  - refine (bool_decide_unpack _ _). vm_compute. exact I.
  - reflexivity.
  - refine (bool_decide_unpack _ _). vm_compute. exact I.
Qed.

(** ** The entitlement table *)

Lemma load_requirements_skips_witness :
  Str.contains (Str.strip "# gated resources") ":" = false ∧
  load_requirements
    (Some ([u "gpu-cluster: pkg-gpu"] ++ u "# gated resources" ::
           [u "fast-disk:pkg-disk"]))
  = load_requirements (Some ([u "gpu-cluster: pkg-gpu"] ++ [u "fast-disk:pkg-disk"])).
Proof.
  split; [reflexivity|].
  apply (load_requirements_skips [u "gpu-cluster: pkg-gpu"] [u "fast-disk:pkg-disk"]
           "# gated resources").
  reflexivity.
Defined.

(** The blanks around a resource may be any white space: here a no-break
    space (160) before it and an ideographic space (12288) after it. *)
Lemma load_requirements_stripped_witness :
  let line := 160%N :: u "gpu-cluster" ++ 12288%N :: u ": pkg:gpu  " in
  load_requirements (Some [line]) = Some [(u "gpu-cluster", u "pkg:gpu")] ∧
  stripped (u "gpu-cluster") ∧ stripped (u "pkg:gpu") ∧ no_colon (u "gpu-cluster").
Proof.
  intros line. split; [reflexivity|].
  apply (load_requirements_stripped [line]
           [(u "gpu-cluster", u "pkg:gpu")] (u "gpu-cluster", u "pkg:gpu")).
  - reflexivity.
  - refine (bool_decide_unpack _ _). vm_compute. exact I.
Defined.

Lemma load_requirements_round_trip_witness :
  let requirements : list (str * str) :=
    [(u "gpu-cluster", u "pkg-gpu"); (u "fast disk", u "pkg:disk")] in
  let text := mjoin (line_of_rule <$> requirements) in
  text = u "gpu-cluster:pkg-gpu" ++ nl ++ u "fast disk:pkg:disk" ++ nl ∧
  load_requirements (Some (text_lines text)) = Some requirements.
Proof.
  intros requirements text. split; [reflexivity|].
  apply (load_requirements_round_trip requirements).
  - refine (bool_decide_unpack _ _). vm_compute. exact I.
  - repeat constructor;
      try (intros c H; vm_compute in H; injection H as <-; reflexivity);
      refine (bool_decide_unpack _ _); vm_compute; exact I.
Defined.

(** ** The record evaluator, continued *)

Lemma process_json_file_table_order_witness :
  let requirements : list (str * str) :=
    [(u "gpu-cluster", u "pkg-gpu"); (u "fast-disk", u "pkg-disk");
     (u "vpn", u "pkg-net")] in
  let user_packages : gmap str (gset str) := {[u "bob" := {[u "pkg-disk"]}]} in
  let resources := JList [JStr "vpn"; JStr "fast-disk"; JStr "gpu-cluster"] in
  let f :=
    JsonFile "srv2.json"
      (Loads (JObj [(u "EndPoint", JStr "srv2");
                    (u "Data", JObj [(u "ownerName", JStr "Bob");
                                     (u "resources", resources)])])) in
  process_json_file Str.ascii_lower requirements user_packages f =
    (entry f (JStr "Bob") (JStr "N/A") (JStr "srv2") <$>
       filter (violated user_packages resources (u "bob")) requirements,
     None).
Proof.
  intros requirements user_packages resources f.
  apply (process_json_file_table_order Str.ascii_lower requirements user_packages f
           resources (JStr "Bob") (JStr "N/A") (JStr "srv2") (u "bob")); reflexivity.
Defined.

Lemma process_json_file_monotone_witness :
  let requirements : list (str * str) :=
    [(u "gpu-cluster", u "pkg-gpu"); (u "fast-disk", u "pkg-disk")] in
  let user_packages : gmap str (gset str) := {[u "bob" := {[u "pkg-disk"]}]} in
  let user_packages' : gmap str (gset str) :=
    {[u "bob" := {[u "pkg-disk"; u "pkg-gpu"]}]} in
  let f :=
    JsonFile "srv2.json"
      (Loads (JObj [(u "Data", JObj [(u "ownerName", JStr "Bob");
                                     (u "resources",
                                      JList [JStr "fast-disk"; JStr "gpu-cluster"])])])) in
  (process_json_file Str.ascii_lower requirements user_packages' f).1
    `sublist_of` (process_json_file Str.ascii_lower requirements user_packages f).1 ∧
  (process_json_file Str.ascii_lower requirements user_packages' f).2
    = (process_json_file Str.ascii_lower requirements user_packages f).2.
Proof.
  intros requirements user_packages user_packages' f.
  apply (process_json_file_monotone Str.ascii_lower requirements user_packages
           user_packages' f).
  intros key. destruct (decide (key = u "bob")) as [->|Hne].
  - refine (bool_decide_unpack _ _). vm_compute. exact I.
  - unfold user_packages, user_packages'.
    rewrite !lookup_singleton_ne by done. done.
Defined.

(** ** The scan coordinator, continued *)

Lemma scan_sound_witness :
  let requirements : list (str * str) := [(u "gpu-cluster", u "pkg-gpu")] in
  let f :=
    JsonFile "srv3.json"
      (Loads (JObj [(u "EndPoint", JStr "srv3");
                    (u "Data", JObj [(u "ownerName", JStr "Carol");
                                     (u "resources", JList [JStr "gpu-cluster"])])])) in
  let v :=
    entry f (JStr "Carol") (JStr "N/A") (JStr "srv3") (u "gpu-cluster", u "pkg-gpu") in
  ∃ f' server_resources owner owner_profile server_code rule,
    f' ∈ [f] ∧
    read_record Str.ascii_lower f' =
      Ok (server_resources, JStr owner, owner_profile, server_code,
          Str.ascii_lower owner) ∧
    rule ∈ requirements ∧
    v = entry f' (JStr owner) owner_profile server_code rule ∧
    py_in rule.1 server_resources = Ok true ∧
    rule.2 ∉ default (∅ : gset str)
               ((∅ : gmap str (gset str)) !! Str.ascii_lower owner).
Proof.
  intros requirements f v.
  apply (scan_sound Str.ascii_lower requirements ∅ [f] [f] v).
  - reflexivity.
  - vm_compute. left.
Defined.

Lemma scan_found_bound_witness :
  let requirements : list (str * str) :=
    [(u "gpu-cluster", u "pkg-gpu"); (u "fast-disk", u "pkg-disk")] in
  let f1 :=
    JsonFile "srv1.json"
      (Loads (JObj [(u "Data", JObj [(u "resources", JList [JStr "gpu-cluster"])])])) in
  let f2 := JsonFile "srv2.json" (ParseFails "Expecting value") in
  foundCount (scan_servers_parallel Str.ascii_lower requirements ∅ [f1; f2] [f2; f1])
    ≤ 2 * 2.
Proof.
  intros requirements f1 f2.
  apply (scan_found_bound Str.ascii_lower requirements ∅ [f1; f2] [f2; f1]).
  apply perm_swap.
Defined.

Lemma scan_progress_witness :
  let requirements : list (str * str) := [(u "gpu-cluster", u "pkg-gpu")] in
  let record (server : str) :=
    Loads (JObj [(u "EndPoint", JStr server);
                 (u "Data", JObj [(u "resources", JList [JStr "gpu-cluster"])])]) in
  let f1 := JsonFile "srv1.json" (record "srv1") in
  let f2 := JsonFile "srv2.json" (ParseFails "Expecting value") in
  let f3 := JsonFile "srv3.json" (record "srv3") in
  progress_lines
    (scan_servers_parallel Str.ascii_lower requirements ∅ [f1; f2; f3] [f3; f2; f1]).2
  = imap (λ i _,
            (S i, 3,
             length (mjoin (outcomes Str.ascii_lower requirements ∅
                              (take (S i) [f3; f2; f1])).*1)))
      [f3; f2; f1].
Proof.
  intros requirements record f1 f2 f3.
  apply (scan_progress Str.ascii_lower requirements ∅ [f1; f2; f3] [f3; f2; f1]).
  exact (Permutation_rev [f1; f2; f3]).
Defined.

Lemma scan_enumeration_order_witness :
  let requirements : list (str * str) := [(u "gpu-cluster", u "pkg-gpu")] in
  let f1 :=
    JsonFile "srv1.json"
      (Loads (JObj [(u "Data", JObj [(u "resources", JList [JStr "gpu-cluster"])])])) in
  let f2 := JsonFile "srv2.json" (ParseFails "Expecting value") in
  let run := scan_servers_parallel Str.ascii_lower requirements ∅ [f1; f2] [f1; f2] in
  let run' := scan_servers_parallel Str.ascii_lower requirements ∅ [f2; f1] [f2; f1] in
  violations run ≡ₚ violations run' ∧
  diagnostics run.2 ≡ₚ diagnostics run'.2 ∧
  processedCount run = processedCount run' ∧
  foundCount run = foundCount run'.
Proof.
  intros requirements f1 f2.
  apply (scan_enumeration_order Str.ascii_lower requirements ∅
           [f1; f2] [f2; f1] [f1; f2] [f2; f1]).
  - apply perm_swap.
  - reflexivity.
  - reflexivity.
Defined.

Lemma scan_app_witness :
  let requirements : list (str * str) := [(u "gpu-cluster", u "pkg-gpu")] in
  let f1 :=
    JsonFile "srv1.json"
      (Loads (JObj [(u "Data", JObj [(u "resources", JList [JStr "gpu-cluster"])])])) in
  let f2 := JsonFile "srv2.json" (ParseFails "Expecting value") in
  let run1 := scan_servers_parallel Str.ascii_lower requirements ∅ [f1] [f1] in
  let run2 := scan_servers_parallel Str.ascii_lower requirements ∅ [f2] [f2] in
  let run :=
    scan_servers_parallel Str.ascii_lower requirements ∅ ([f1] ++ [f2]) ([f1] ++ [f2]) in
  violations run = violations run1 ++ violations run2 ∧
  diagnostics run.2 = diagnostics run1.2 ++ diagnostics run2.2 ∧
  processedCount run = processedCount run1 + processedCount run2 ∧
  foundCount run = foundCount run1 + foundCount run2.
Proof.
  intros requirements f1 f2.
  apply (scan_app Str.ascii_lower requirements ∅ [f1] [f2] [f1] [f2]); reflexivity.
Defined.

(** ** The customer index, continued *)

Lemma load_customer_packages_short_row_witness :
  let rows : list row :=
    [ [(u "Username", Some (u "alice")); (u "Packages", Some (u "pkg-a"))];
      [(u "Username", Some (u "bob")); (u "Packages", None)] ] in
  load_customer_packages Str.ascii_lower [rows] =
    Raise (Exn AttributeError "'NoneType' object has no attribute 'strip'").
Proof.
  intros rows. apply (load_customer_packages_short_row Str.ascii_lower rows []).
  intros Hrows. apply Forall_cons in Hrows as [_ Hrows].
  apply Forall_cons in Hrows as [[_ [p Hp]] _]. discriminate Hp.
Defined.

Lemma load_customer_packages_row_order_witness :
  let r1 : row :=
    [(u "Username", Some (u "Alice")); (u "Packages", Some (u "[pkg-a, pkg-b]"))] in
  let r2 : row := [(u "Username", Some (u "bob")); (u "Packages", Some (u "pkg-c"))] in
  load_customer_packages Str.ascii_lower [[r1; r2]] =
    load_customer_packages Str.ascii_lower [[r2; r1]].
Proof.
  intros r1 r2.
  apply (load_customer_packages_row_order Str.ascii_lower [r1; r2] [r2; r1] [] []).
  - apply perm_swap.
  - repeat constructor; eexists; reflexivity.
Defined.

Lemma load_customer_packages_app_witness :
  let rows1 : list row :=
    [ [(u "Username", Some (u "Alice")); (u "Packages", Some (u "[pkg-a, pkg-b]"))] ] in
  let rows2 : list row :=
    [ [(u "Username", Some (u "alice")); (u "Packages", Some (u "pkg-c"))];
      [(u "Username", Some (u "bob")); (u "Packages", Some (u "pkg-a"))] ] in
  ∃ m1 m2,
    load_customer_packages Str.ascii_lower [rows1] = Ok m1 ∧
    load_customer_packages Str.ascii_lower [rows2] = Ok m2 ∧
    load_customer_packages Str.ascii_lower [rows1 ++ rows2] = Ok (merge_index m1 m2).
Proof.
  intros rows1 rows2. apply (load_customer_packages_app Str.ascii_lower rows1 rows2).
  - repeat constructor; eexists; reflexivity.
  - repeat constructor; eexists; reflexivity.
Defined.

Lemma load_customer_packages_normal_witness :
  let rows : list row :=
    [ [(u "Username", Some (160%N :: u "Alice "));
       (u "Packages", Some (u "[pkg-a; pkg-b]"))] ] in
  let owned_packages : gset str := {[ u "pkg-a"; u "pkg-b" ]} in
  (∃ username,
     u "alice" = Str.ascii_lower username ∧ username ≠ [] ∧ stripped username) ∧
  ∀ p, p ∈ owned_packages → p ≠ [] ∧ Forall (λ c, package_char c = true) p.
Proof.
  intros rows owned_packages.
  apply (load_customer_packages_normal Str.ascii_lower rows []
           {[u "alice" := owned_packages]} (u "alice") owned_packages).
  - vm_compute. reflexivity.
  - reflexivity.
Defined.

(** ** The report and the main program *)

Lemma main_short_row_witness :
  let py_str (v : json) : str := match v with JStr s => s | _ => [] end in
  let rows : list row := [ [(u "Username", Some (u "bob")); (u "Packages", None)] ] in
  let f := JsonFile "srv1.json" (Loads (JObj [])) in
  let run :=
    main Str.ascii_lower py_str (Some [u "gpu-cluster:pkg-gpu"]) [rows] [f] [f]
      "20240101_000000" "2024-01-01 00:00:00" in
  run.2 = Some (Uncaught (Exn AttributeError
                            "'NoneType' object has no attribute 'strip'")) ∧
  scanned run.1 = [] ∧ written run.1 = [] ∧ printed run.1 = [].
Proof.
  intros py_str rows f.
  apply (main_short_row Str.ascii_lower py_str (Some [u "gpu-cluster:pkg-gpu"])
           rows [] [f] [f]).
  intros Hrows. apply Forall_cons in Hrows as [[_ [p Hp]] _]. discriminate Hp.
Defined.

Lemma main_reports_agree_witness :
  let py_str (v : json) : str := match v with JStr s => s | _ => [] end in
  let requirements_file := Some [u "gpu-cluster: pkg-gpu"; nl] in
  let csv_files : list (list row) :=
    [ [ [(u "Username", Some (u "Alice")); (u "Packages", Some (u "[pkg-gpu]"))] ] ] in
  let record (server owner : str) :=
    Loads (JObj [(u "EndPoint", JStr server);
                 (u "Data", JObj [(u "ownerName", JStr owner);
                                  (u "resources", JList [JStr "gpu-cluster"])])]) in
  let f1 := JsonFile "srv1.json" (record "srv1" "alice") in
  let f2 := JsonFile "srv2.json" (record "srv2" "bob") in
  let requirements : list (str * str) := [(u "gpu-cluster", u "pkg-gpu")] in
  let scan :=
    scan_servers_parallel Str.ascii_lower requirements
      {[u "alice" := {[u "pkg-gpu"]}]} [f1; f2] [f2; f1] in
  let run :=
    main Str.ascii_lower py_str requirements_file csv_files [f1; f2] [f2; f1]
      "20240101_000000" "2024-01-01 00:00:00" in
  let texts :=
    report_texts py_str "2024-01-01 00:00:00" (violations scan) requirements in
  run.2 = None ∧
  scanned run.1 = scan.2 ∧
  written run.1 = [(u "outputs/5DB-Check-ID_20240101_000000.txt", texts)] ∧
  texts !! 5 =
    Some (u "Total Unauthorized Servers Found: " ++
          decimal (length (violations scan)) ++ nl) ∧
  summary run.1 = [(2, length (violations scan))] ∧
  if decide (violations scan = []) then
    drop 7 texts = [u "No unauthorized servers found!" ++ nl] ∧
    printed run.1 = [nl ++ u "No unauthorized servers found!"]
  else
    drop 7 texts =
      (λ line, line ++ nl) <$> (violations scan ≫= server_lines py_str) ∧
    drop 3 (printed run.1) = violations scan ≫= server_lines py_str.
Proof.
  intros py_str requirements_file csv_files record f1 f2 requirements.
  apply (main_reports_agree Str.ascii_lower py_str requirements_file csv_files
           [f1; f2] [f2; f1] "20240101_000000" "2024-01-01 00:00:00"
           requirements {[u "alice" := {[u "pkg-gpu"]}]}).
  - reflexivity.
  - vm_compute. reflexivity.
  - apply perm_swap.
  - refine (bool_decide_unpack _ _). vm_compute. exact I.
Defined.

(** The server code of this record is a lone surrogate, which JSON can
    state ([\ud800], the code point 55296): the report stops at the line of
    the server code. *)
Lemma main_encode_error_witness :
  let py_str (v : json) : str := match v with JStr s => s | _ => [] end in
  let requirements_file := Some [u "gpu-cluster: pkg-gpu"] in
  let requirements : list (str * str) := [(u "gpu-cluster", u "pkg-gpu")] in
  let f :=
    JsonFile "srv1.json"
      (Loads (JObj [(u "EndPoint", JStr [55296%N]);
                    (u "Data", JObj [(u "resources", JList [JStr "gpu-cluster"])])])) in
  let scan := scan_servers_parallel Str.ascii_lower requirements ∅ [f] [f] in
  let run :=
    main Str.ascii_lower py_str requirements_file [] [f] [f]
      "20240101_000000" "2024-01-01 00:00:00" in
  let texts :=
    report_texts py_str "2024-01-01 00:00:00" (violations scan) requirements in
  ∃ before text after,
    texts = before ++ text :: after ∧
    Forall (λ text, encodable text = true) before ∧
    encodable text = false ∧
    run.2 = Some (EncodeError text) ∧
    written run.1 = [(u "outputs/5DB-Check-ID_20240101_000000.txt", before)] ∧
    printed run.1 = [] ∧
    scanned run.1 = scan.2.
Proof.
  intros py_str requirements_file requirements f.
  apply (main_encode_error Str.ascii_lower py_str requirements_file [] [f] [f]
           "20240101_000000" "2024-01-01 00:00:00" requirements ∅).
  - reflexivity.
  - reflexivity.
  - intros Htexts. apply Forall_forall with (x := (u "Server Code: " ++ [55296%N] ++ nl))
      in Htexts; [discriminate Htexts|].
    refine (bool_decide_unpack _ _). vm_compute. exact I.
Defined.
